(** * glogi: a shallow embedding of the colored slog front-end

    The development follows the two Go files of the package that the
    logging calls go through:

    - [glogi.go]: the package variables, [Init], [SetLevel],
      [parseLevel], [ensureInit], [logWithCaller], the leveled entry
      points and [Recover];
    - the handler file: the configuration variables, [initConfig],
      [parseColor], the setters, and [ColoredHandler] with [Enabled],
      [Handle], [formatLevelWithColor] and [WithAttrs].

    Go strings are byte sequences; they are modelled by [string] (one
    [ascii] per byte).  The functions of the Go standard library that the
    package calls ([strings.TrimSpace], [strings.ReplaceAll],
    [strconv.Atoi], the [fmt] verbs that occur, slice [append]) are
    modelled in the modules [GoStrings], [GoFmt] and [GoSlice]. *)

From Stdlib Require Import Bool Arith ZArith List Ascii String Lia.
From Stdlib Require Import DecimalString.
Import ListNotations.

Local Open Scope string_scope.
Local Open Scope bool_scope.

(* ================================================================== *)
(** ** Byte strings and the [strings] / [strconv] functions in use     *)
(* ================================================================== *)

Module GoStrings.

(** The byte with the given code. *)
Definition byte (n : nat) : ascii := ascii_of_nat n.

(** A string given by its byte codes. *)
Fixpoint bytes (l : list nat) : string :=
  match l with
  | [] => ""
  | n :: l' => String (byte n) (bytes l')
  end.

(** The escape byte, written ["\033"] in the Go source. *)
Definition ESC : ascii := byte 27.

(** [HasPrefix s p]: [s] begins with [p] (strings.HasPrefix). *)
Fixpoint HasPrefix (s p : string) {struct p} : bool :=
  match p, s with
  | "", _ => true
  | String _ _, "" => false
  | String a p', String b s' => Ascii.eqb b a && HasPrefix s' p'
  end.

(** [s[n:]] *)
Fixpoint drop (n : nat) (s : string) : string :=
  match n, s with
  | O, _ => s
  | S _, "" => ""
  | S k, String _ s' => drop k s'
  end.

(** [s[:n]] for [n <= len(s)] *)
Fixpoint take (n : nat) (s : string) : string :=
  match n, s with
  | O, _ => ""
  | S _, "" => ""
  | S k, String a s' => String a (take k s')
  end.

Fixpoint rev (s : string) : string :=
  match s with
  | "" => ""
  | String a s' => rev s' ++ String a ""
  end.

Fixpoint repeat (a : ascii) (n : nat) : string :=
  match n with
  | O => ""
  | S k => String a (repeat a k)
  end.

(** strings.Contains(s, substr) *)
Fixpoint Contains (s substr : string) : bool :=
  HasPrefix s substr ||
  match s with
  | "" => false
  | String _ s' => Contains s' substr
  end.

(** Occurrence of one byte. *)
Fixpoint has_byte (c : ascii) (s : string) : bool :=
  match s with
  | "" => false
  | String a s' => Ascii.eqb a c || has_byte c s'
  end.

(** strings.ReplaceAll(s, old, new) for a non-empty [old] (the only use
    in the package): occurrences are replaced from left to right and do
    not overlap.  [skip] counts the bytes of the current occurrence that
    are still to be passed over. *)
Fixpoint replace_from (skip : nat) (s old new : string) : string :=
  match s with
  | "" => ""
  | String a s' =>
      match skip with
      | S k => replace_from k s' old new
      | O =>
          if HasPrefix s old
          then new ++ replace_from (length old - 1) s' old new
          else String a (replace_from 0 s' old new)
      end
  end.

Definition ReplaceAll (s old new : string) : string :=
  replace_from 0 s old new.

(** *** strings.TrimSpace

    A leading or trailing rune is removed when unicode.IsSpace holds of
    it.  The white-space runes are the six of ASCII and U+0085, U+00A0,
    U+1680, U+2000..U+200A, U+2028, U+2029, U+202F, U+205F, U+3000; a
    rune is one of them exactly when the bytes are its UTF-8 encoding. *)
Definition space_runes : list string :=
  [ bytes [9]; bytes [10]; bytes [11]; bytes [12]; bytes [13]; bytes [32];
    bytes [194; 133]; bytes [194; 160];
    bytes [225; 154; 128];
    bytes [226; 128; 128]; bytes [226; 128; 129]; bytes [226; 128; 130];
    bytes [226; 128; 131]; bytes [226; 128; 132]; bytes [226; 128; 133];
    bytes [226; 128; 134]; bytes [226; 128; 135]; bytes [226; 128; 136];
    bytes [226; 128; 137]; bytes [226; 128; 138];
    bytes [226; 128; 168]; bytes [226; 128; 169]; bytes [226; 128; 175];
    bytes [226; 129; 159];
    bytes [227; 128; 128] ].

(** The rest of [s] after one leading member of [runes], if there is one. *)
Fixpoint strip_one (runes : list string) (s : string) : option string :=
  match runes with
  | [] => None
  | p :: runes' =>
      if HasPrefix s p then Some (drop (length p) s) else strip_one runes' s
  end.

Fixpoint trim_left_fuel (fuel : nat) (runes : list string) (s : string)
  : string :=
  match fuel with
  | O => s
  | S k =>
      match strip_one runes s with
      | Some s' => trim_left_fuel k runes s'
      | None => s
      end
  end.

Definition trim_left (runes : list string) (s : string) : string :=
  trim_left_fuel (length s) runes s.

Definition TrimLeftSpace (s : string) : string := trim_left space_runes s.

Definition TrimRightSpace (s : string) : string :=
  rev (trim_left (map rev space_runes) (rev s)).

Definition TrimSpace (s : string) : string :=
  TrimRightSpace (TrimLeftSpace s).

(** *** strings.ToLower and strings.ToUpper

    Both are only ever compared with ASCII literals.  The ASCII letters
    are mapped, and so are the runes whose simple case mapping is an
    ASCII letter: U+0130 and U+212A for lower case ([i], [k]), U+0131 and
    U+017F for upper case ([I], [S]).  Every other byte above 127 is kept
    as it is: Go maps such runes to runes outside ASCII, so whether the
    result equals an ASCII literal is the same. *)
Definition lower_byte (a : ascii) : ascii :=
  let n := nat_of_ascii a in
  if ((65 <=? n) && (n <=? 90))%nat then byte (n + 32) else a.

Definition upper_byte (a : ascii) : ascii :=
  let n := nat_of_ascii a in
  if ((97 <=? n) && (n <=? 122))%nat then byte (n - 32) else a.

Fixpoint lower_from (skip : nat) (s : string) : string :=
  match s with
  | "" => ""
  | String a s' =>
      match skip with
      | S k => lower_from k s'
      | O =>
          if HasPrefix s (bytes [196; 176]) then String "i" (lower_from 1 s')
          else if HasPrefix s (bytes [226; 132; 170])
               then String "k" (lower_from 2 s')
          else String (lower_byte a) (lower_from 0 s')
      end
  end.

Definition ToLower (s : string) : string := lower_from 0 s.

Fixpoint upper_from (skip : nat) (s : string) : string :=
  match s with
  | "" => ""
  | String a s' =>
      match skip with
      | S k => upper_from k s'
      | O =>
          if HasPrefix s (bytes [196; 177]) then String "I" (upper_from 1 s')
          else if HasPrefix s (bytes [197; 191])
               then String "S" (upper_from 1 s')
          else String (upper_byte a) (upper_from 0 s')
      end
  end.

Definition ToUpper (s : string) : string := upper_from 0 s.

(** strings.LastIndex(s, "/") followed by [s[idx+1:]]: what follows the
    last slash, or all of [s] when there is none. *)
Fixpoint after_last_slash (s : string) : string :=
  match s with
  | "" => ""
  | String a s' =>
      if has_byte "/" s' then after_last_slash s'
      else if Ascii.eqb a "/" then s' else s
  end.

(** *** strconv.Atoi

    An optional sign, then one or more decimal digits and nothing else;
    the value must fit the 64-bit [int]. *)
Definition is_digit (a : ascii) : bool :=
  let n := nat_of_ascii a in ((48 <=? n) && (n <=? 57))%nat.

Fixpoint digits_value (acc : Z) (s : string) : option Z :=
  match s with
  | "" => Some acc
  | String a s' =>
      if is_digit a
      then digits_value (10 * acc + (Z.of_nat (nat_of_ascii a) - 48)) s'
      else None
  end.

Definition unsigned_value (s : string) : option Z :=
  match s with
  | "" => None
  | _ => digits_value 0 s
  end.

Definition in_int_range (z : Z) : bool :=
  ((- 2 ^ 63 <=? z) && (z <? 2 ^ 63))%Z.

Definition signed_value (neg : bool) (body : string) : option Z :=
  match unsigned_value body with
  | None => None
  | Some v =>
      let z := if neg then (- v)%Z else v in
      if in_int_range z then Some z else None
  end.

Definition Atoi (s : string) : option Z :=
  match s with
  | String a body =>
      if Ascii.eqb a "+" then signed_value false body
      else if Ascii.eqb a "-" then signed_value true body
      else signed_value false s
  | "" => None
  end.

(** *** utf8.RuneCountInString

    [rune_size s] is the number of bytes of the first rune of a
    non-empty [s]; a byte that does not begin a well-formed encoding is
    a rune of its own. *)
Definition between (lo hi : nat) (a : ascii) : bool :=
  let n := nat_of_ascii a in ((lo <=? n) && (n <=? hi))%nat.

Definition rune_size (s : string) : nat :=
  match s with
  | "" => 0
  | String b0 r =>
      if between 0 127 b0 then 1
      else if between 194 223 b0 then
        match r with
        | String b1 _ => if between 128 191 b1 then 2 else 1
        | _ => 1
        end
      else if between 224 239 b0 then
        match r with
        | String b1 (String b2 _) =>
            let lo := if between 224 224 b0 then 160 else 128 in
            let hi := if between 237 237 b0 then 159 else 191 in
            if between lo hi b1 && between 128 191 b2 then 3 else 1
        | _ => 1
        end
      else if between 240 244 b0 then
        match r with
        | String b1 (String b2 (String b3 _)) =>
            let lo := if between 240 240 b0 then 144 else 128 in
            let hi := if between 244 244 b0 then 143 else 191 in
            if between lo hi b1 && between 128 191 b2 && between 128 191 b3
            then 4 else 1
        | _ => 1
        end
      else 1
  end.

Fixpoint rune_count_from (skip : nat) (s : string) : nat :=
  match s with
  | "" => 0
  | String _ s' =>
      match skip with
      | S k => rune_count_from k s'
      | O => S (rune_count_from (rune_size s - 1) s')
      end
  end.

Definition RuneCountInString (s : string) : nat := rune_count_from 0 s.

(** *** Vocabulary of the facts below *)

(** [p] ends [s]. *)
Definition is_suffix (p s : string) : Prop := exists u, s = u ++ p.

(** A string is trimmed when no white-space rune begins or ends it. *)
Definition trimmed (s : string) : Prop :=
  strip_one space_runes s = None /\
  strip_one (map rev space_runes) (rev s) = None.

(** Some member of [runes] begins with the byte [a]. *)
Definition starts_some (runes : list string) (a : ascii) : bool :=
  existsb (fun p => match p with String b _ => Ascii.eqb b a | "" => true end)
          runes.

(** Every byte of [s] is below 128. *)
Fixpoint all_ascii (s : string) : bool :=
  match s with
  | "" => true
  | String a s' => between 0 127 a && all_ascii s'
  end.

End GoStrings.

(* ================================================================== *)
(** ** The [fmt] verbs and the time layout in use                      *)
(* ================================================================== *)

Module GoFmt.
Import GoStrings.

(** [%d] of an integer. *)
Definition itoa (z : Z) : string := NilZero.string_of_int (Z.to_int z).

(** Padding on the right with spaces up to [width] runes ([%-5s] and
    the like): fmt measures the operand in runes, not in bytes. *)
Definition pad_right (width : nat) (s : string) : string :=
  s ++ repeat " " (width - RuneCountInString s).

(** fmt refuses a width given through [*] whose magnitude exceeds one
    million: it prints [%!(BADWIDTH)] and formats without a width. *)
Definition tooLarge (x : Z) : bool := ((1000000 <? x) || (x <? -1000000))%Z.

Definition badWidthString : string := "%!(BADWIDTH)".

(** fmt.Sprintf("%-*s", width, s) *)
Definition Sprintf_left_star (width : Z) (s : string) : string :=
  if tooLarge width then badWidthString ++ s
  else pad_right (Z.to_nat (Z.abs width)) s.

(** The broken-down local time that [Time.Format] prints. *)
Record Time := mkTime {
  Year : Z; Month : Z; Day : Z; Hour : Z; Minute : Z; Second : Z
}.

(** time's appendInt: the decimal digits of [x], padded with zeros on
    the left to [width] digits, after a minus sign when [x] is negative. *)
Definition appendInt (x : Z) (width : nat) : string :=
  let digits := itoa (Z.abs x) in
  (if (x <? 0)%Z then "-" else "") ++
  repeat "0" (width - length digits) ++ digits.

(** t.Format("2006/01/02 15:04:05") *)
Definition FormatTime (t : Time) : string :=
  appendInt (Year t) 4 ++ "/" ++ appendInt (Month t) 2 ++ "/" ++
  appendInt (Day t) 2 ++ " " ++ appendInt (Hour t) 2 ++ ":" ++
  appendInt (Minute t) 2 ++ ":" ++ appendInt (Second t) 2.

End GoFmt.

(* ================================================================== *)
(** ** Slices over a heap of backing arrays                            *)
(* ================================================================== *)

Module GoSlice.
Local Open Scope nat_scope.
Local Open Scope list_scope.

Section Slices.

Context {A : Type}.
Variable zero : A.

(** A slice header: the address of the backing array, the length and
    the capacity.  The nil slice has capacity 0 and its address is not
    used. *)
Record slice := mkSlice { ptr : nat; len : nat; cap : nat }.

(** The heap: the backing arrays by address (position in the list). *)
Definition heap := list (list A).

Definition nil_slice : slice := mkSlice 0 0 0.

Definition array_at (hp : heap) (p : nat) : list A := nth p hp [].

(** The elements [s[0..len)]. *)
Definition elems (hp : heap) (s : slice) : list A :=
  firstn (len s) (array_at hp (ptr s)).

Fixpoint store_array (hp : heap) (p : nat) (arr : list A) : heap :=
  match hp, p with
  | [], _ => []
  | _ :: hp', O => arr :: hp'
  | a :: hp', S q => a :: store_array hp' q arr
  end.

(** runtime.nextslicecap: the capacity asked for when [append] outgrows
    the array.  (The allocator may round it up to a size class; it
    leaves 1, 2 and 4 elements of the 40 bytes of a slog.Attr as they
    are.) *)
Fixpoint grow_quarter (fuel newcap newLen : nat) : nat :=
  match fuel with
  | O => newcap
  | S k =>
      let newcap' := newcap + (newcap + 3 * 256) / 4 in
      if newLen <=? newcap' then newcap' else grow_quarter k newcap' newLen
  end.

Definition nextslicecap (newLen oldCap : nat) : nat :=
  let doublecap := oldCap + oldCap in
  if doublecap <? newLen then newLen
  else if oldCap <? 256 then doublecap
  else grow_quarter newLen oldCap newLen.

(** [append(s, xs...)]: when the capacity suffices the new elements are
    written into the backing array of [s], behind its length; otherwise a
    new array is allocated and the elements of [s] are copied into it. *)
Definition append (hp : heap) (s : slice) (xs : list A) : slice * heap :=
  match xs with
  | [] => (s, hp)
  | _ =>
      let newLen := len s + List.length xs in
      if newLen <=? cap s then
        let arr := array_at hp (ptr s) in
        let arr' := firstn (len s) arr ++ xs ++ skipn newLen arr in
        (mkSlice (ptr s) newLen (cap s), store_array hp (ptr s) arr')
      else
        let newcap := nextslicecap newLen (cap s) in
        let arr' := elems hp s ++ xs ++ List.repeat zero (newcap - newLen) in
        (mkSlice (List.length hp) newLen newcap, hp ++ [arr'])
  end.

(** A slice header fits the heap: the nil slice, or a header whose
    array is allocated and has the capacity as its length. *)
Definition slice_ok (hp : heap) (s : slice) : Prop :=
  len s <= cap s /\
  (cap s = 0 \/ (ptr s < List.length hp /\ List.length (array_at hp (ptr s)) = cap s)).

End Slices.
End GoSlice.

(* ================================================================== *)
(** ** The handler file: configuration                                 *)
(* ================================================================== *)

Import GoStrings GoFmt.

Definition defaultColorReset : string := String ESC "[0m".
Definition defaultColorDarkGray : string := String ESC "[90m".
Definition defaultColorCyan : string := String ESC "[36m".
Definition defaultColorLightGray : string := String ESC "[37m".
Definition defaultColorYellow : string := String ESC "[33m".
Definition defaultColorRed : string := String ESC "[31m".
Definition defaultColorGreen : string := String ESC "[32m".

(** The configuration variables of the package. *)
Record Config := mkConfig {
  sourceWidth : Z;
  colorReset : string;
  colorTrace : string;
  colorDebug : string;
  colorInfo : string;
  colorWarn : string;
  colorError : string;
  colorSource : string;
  colorsDisabled : bool;
  configLoaded : bool
}.

(** The values the variables are declared with. *)
Definition initial_config : Config :=
  {| sourceWidth := 20;
     colorReset := defaultColorReset;
     colorTrace := defaultColorDarkGray;
     colorDebug := defaultColorCyan;
     colorInfo := "";
     colorWarn := defaultColorYellow;
     colorError := defaultColorRed;
     colorSource := defaultColorGreen;
     colorsDisabled := false;
     configLoaded := false |}.

(** The text form of the escape byte accepted in a color setting: a
    backslash followed by [033]. *)
Definition escape_text : string := "\033".

(** parseColor converts a color setting to an ANSI sequence. *)
Definition parseColor (c : string) : string :=
  let c := TrimSpace c in
  if c =? "" then ""
  else
    let l := ToLower c in
    if l =? "red" then String ESC "[31m"
    else if l =? "green" then String ESC "[32m"
    else if l =? "yellow" then String ESC "[33m"
    else if l =? "blue" then String ESC "[34m"
    else if l =? "magenta" then String ESC "[35m"
    else if l =? "cyan" then String ESC "[36m"
    else if l =? "white" then String ESC "[37m"
    else if (l =? "gray") || (l =? "grey") then String ESC "[90m"
    else if (l =? "none") || (l =? "off") then ""
    else if Contains c (String ESC "") || Contains c escape_text
    then ReplaceAll c escape_text (String ESC "")
    else
      match Atoi c with
      | Some _ => String ESC "[" ++ c ++ "m"
      | None => c
      end.

Definition with_sourceWidth (w : Z) (c : Config) : Config :=
  mkConfig w (colorReset c) (colorTrace c) (colorDebug c) (colorInfo c)
    (colorWarn c) (colorError c) (colorSource c) (colorsDisabled c)
    (configLoaded c).
Definition with_colorTrace (s : string) (c : Config) : Config :=
  mkConfig (sourceWidth c) (colorReset c) s (colorDebug c) (colorInfo c)
    (colorWarn c) (colorError c) (colorSource c) (colorsDisabled c)
    (configLoaded c).
Definition with_colorDebug (s : string) (c : Config) : Config :=
  mkConfig (sourceWidth c) (colorReset c) (colorTrace c) s (colorInfo c)
    (colorWarn c) (colorError c) (colorSource c) (colorsDisabled c)
    (configLoaded c).
Definition with_colorInfo (s : string) (c : Config) : Config :=
  mkConfig (sourceWidth c) (colorReset c) (colorTrace c) (colorDebug c) s
    (colorWarn c) (colorError c) (colorSource c) (colorsDisabled c)
    (configLoaded c).
Definition with_colorWarn (s : string) (c : Config) : Config :=
  mkConfig (sourceWidth c) (colorReset c) (colorTrace c) (colorDebug c)
    (colorInfo c) s (colorError c) (colorSource c) (colorsDisabled c)
    (configLoaded c).
Definition with_colorError (s : string) (c : Config) : Config :=
  mkConfig (sourceWidth c) (colorReset c) (colorTrace c) (colorDebug c)
    (colorInfo c) (colorWarn c) s (colorSource c) (colorsDisabled c)
    (configLoaded c).
Definition with_colorSource (s : string) (c : Config) : Config :=
  mkConfig (sourceWidth c) (colorReset c) (colorTrace c) (colorDebug c)
    (colorInfo c) (colorWarn c) (colorError c) s (colorsDisabled c)
    (configLoaded c).
Definition with_colorsDisabled (b : bool) (c : Config) : Config :=
  mkConfig (sourceWidth c) (colorReset c) (colorTrace c) (colorDebug c)
    (colorInfo c) (colorWarn c) (colorError c) (colorSource c) b
    (configLoaded c).
Definition with_configLoaded (b : bool) (c : Config) : Config :=
  mkConfig (sourceWidth c) (colorReset c) (colorTrace c) (colorDebug c)
    (colorInfo c) (colorWarn c) (colorError c) (colorSource c)
    (colorsDisabled c) b.

(** SetSourceWidth sets the fixed width of the source location. *)
Definition SetSourceWidth (width : Z) (c : Config) : Config :=
  if (0 <? width)%Z then with_sourceWidth width c else c.

Definition SetColorTrace (color : string) := with_colorTrace (parseColor color).
Definition SetColorDebug (color : string) := with_colorDebug (parseColor color).
Definition SetColorInfo (color : string) := with_colorInfo (parseColor color).
Definition SetColorWarn (color : string) := with_colorWarn (parseColor color).
Definition SetColorError (color : string) := with_colorError (parseColor color).
Definition SetColorSource (color : string) := with_colorSource (parseColor color).
Definition DisableColors := with_colorsDisabled true.
Definition EnableColors := with_colorsDisabled false.

(** initConfig reads the configuration from the environment, once.
    [getenv] is os.Getenv: the empty string for a variable not set. *)
Definition initConfig (getenv : string -> string) (c : Config) : Config :=
  if configLoaded c then c
  else
    let c := with_configLoaded true c in
    let c :=
      let w := getenv "LOG_SOURCE_WIDTH" in
      if w =? "" then c
      else match Atoi w with
           | Some width => if (0 <? width)%Z then with_sourceWidth width c else c
           | None => c
           end in
    let c :=
      if (getenv "LOG_NO_COLOR" =? "1") || (getenv "LOG_NO_COLOR" =? "true")
      then with_colorsDisabled true c else c in
    let from_env (name : string) (set : string -> Config -> Config) c :=
      let v := getenv name in
      if v =? "" then c else set (parseColor v) c in
    let c := from_env "LOG_COLOR_TRACE" with_colorTrace c in
    let c := from_env "LOG_COLOR_DEBUG" with_colorDebug c in
    let c := from_env "LOG_COLOR_INFO" with_colorInfo c in
    let c := from_env "LOG_COLOR_WARN" with_colorWarn c in
    let c := from_env "LOG_COLOR_ERROR" with_colorError c in
    from_env "LOG_COLOR_SOURCE" with_colorSource c.

(* ================================================================== *)
(** ** The slog data the package handles                               *)
(* ================================================================== *)

Definition LevelTrace : Z := -8.
Definition LevelDebug : Z := -4.
Definition LevelInfo : Z := 0.
Definition LevelWarn : Z := 4.
Definition LevelError : Z := 8.
Definition LevelFatal : Z := 12.
Definition LevelPanic : Z := 16.

(** An attribute value, by kind.  [AnyValue] stands for every other
    kind and carries the text [%v] prints for it. *)
Inductive Value : Type :=
| StringValue (s : string)
| Int64Value (z : Z)
| BoolValue (b : bool)
| AnyValue (text : string).

(** [%v] of [v.Any()] *)
Definition fmt_v (v : Value) : string :=
  match v with
  | StringValue s => s
  | Int64Value z => itoa z
  | BoolValue b => if b then "true" else "false"
  | AnyValue text => text
  end.

Record Attr := mkAttr { Key : string; Val : Value }.

(** An argument of a logging call ([...any]). *)
Inductive any : Type :=
| any_string (s : string)
| any_int (z : Z)
| any_bool (b : bool)
| any_Attr (a : Attr)
| any_other (text : string).

(** slog.AnyValue *)
Definition AnyValueOf (x : any) : Value :=
  match x with
  | any_string s => StringValue s
  | any_int z => Int64Value z
  | any_bool b => BoolValue b
  | any_Attr a => AnyValue (Key a ++ "=" ++ fmt_v (Val a))
  | any_other text => AnyValue text
  end.

Definition badKey : string := "!BADKEY".

(** slog's argsToAttr, repeated until the arguments are used up: a
    string is a key and takes the next argument as its value, an Attr
    stands for itself, anything else is a value without a key. *)
Fixpoint argsToAttrs (args : list any) : list Attr :=
  match args with
  | [] => []
  | any_string x :: rest =>
      match rest with
      | [] => [mkAttr badKey (StringValue x)]
      | v :: rest' => mkAttr x (AnyValueOf v) :: argsToAttrs rest'
      end
  | any_Attr a :: rest => a :: argsToAttrs rest
  | x :: rest => mkAttr badKey (AnyValueOf x) :: argsToAttrs rest
  end.

Record SlogRecord := mkRecord {
  RTime : Time;
  RLevel : Z;
  Message : string;
  PC : N;
  RAttrs : list Attr
}.

(** r.Add(args...) *)
Definition Add (r : SlogRecord) (args : list any) : SlogRecord :=
  mkRecord (RTime r) (RLevel r) (Message r) (PC r)
           (RAttrs r ++ argsToAttrs args).

(** runtime.Frame, as far as it is read. *)
Record Frame := mkFrame { File : string; Line : Z }.

(* ================================================================== *)
(** ** The state of the process and its surroundings                   *)
(* ================================================================== *)

Inductive Writer : Type := Stdout | OtherWriter (id : nat).

Inductive error : Type := WriteError (msg : string).

(** What a run leaves behind: the records built by slog.NewRecord and
    the calls of Write, each with the bytes passed and its result. *)
Inductive Event : Type :=
| EvRecord (r : SlogRecord)
| EvWrite (wr : Writer) (p : string) (err : option error).

(** The surroundings, which the package reads and cannot change. *)
Record Env := mkEnv {
  Getenv : string -> string;                (* os.Getenv *)
  Now : list Event -> Time;                 (* time.Now *)
  FrameOf : N -> Frame;                     (* runtime.CallersFrames *)
  pc_in : string -> N;    (* the call site inside a function of the package *)
  StackDump : string;                       (* runtime.Stack *)
  WriteResult : list Event -> Writer -> string -> option error
}.

Definition AttrSlice := GoSlice.slice.

Definition zeroAttr : Attr := mkAttr "" (AnyValue "<nil>").

(** ColoredHandler; [h_level] is the address of the slog.LevelVar. *)
Record ColoredHandler := mkHandler {
  h_level : nat;
  h_writer : Writer;
  h_attrs : AttrSlice;
  h_groups : list string
}.

(** The package variables of both files, the slog.LevelVar cells and
    the backing arrays of attribute slices, the trace, and the value of
    a panic in flight. *)
Record World := mkWorld {
  config : Config;
  logger : option ColoredHandler;
  level : option nat;
  initOnce : bool;
  isInit : bool;
  levelVars : list Z;
  arrays : list (list Attr);
  trace : list Event;
  panicking : option any
}.

Definition set_config (c : Config) (w : World) : World :=
  mkWorld c (logger w) (level w) (initOnce w) (isInit w) (levelVars w)
          (arrays w) (trace w) (panicking w).
Definition set_logger (l : option ColoredHandler) (w : World) : World :=
  mkWorld (config w) l (level w) (initOnce w) (isInit w) (levelVars w)
          (arrays w) (trace w) (panicking w).
Definition set_level (l : option nat) (w : World) : World :=
  mkWorld (config w) (logger w) l (initOnce w) (isInit w) (levelVars w)
          (arrays w) (trace w) (panicking w).
Definition set_initOnce (b : bool) (w : World) : World :=
  mkWorld (config w) (logger w) (level w) b (isInit w) (levelVars w)
          (arrays w) (trace w) (panicking w).
Definition set_isInit (b : bool) (w : World) : World :=
  mkWorld (config w) (logger w) (level w) (initOnce w) b (levelVars w)
          (arrays w) (trace w) (panicking w).
Definition set_levelVars (l : list Z) (w : World) : World :=
  mkWorld (config w) (logger w) (level w) (initOnce w) (isInit w) l
          (arrays w) (trace w) (panicking w).
Definition set_arrays (a : list (list Attr)) (w : World) : World :=
  mkWorld (config w) (logger w) (level w) (initOnce w) (isInit w)
          (levelVars w) a (trace w) (panicking w).
Definition set_trace (t : list Event) (w : World) : World :=
  mkWorld (config w) (logger w) (level w) (initOnce w) (isInit w)
          (levelVars w) (arrays w) t (panicking w).
Definition set_panicking (p : option any) (w : World) : World :=
  mkWorld (config w) (logger w) (level w) (initOnce w) (isInit w)
          (levelVars w) (arrays w) (trace w) p.

(** The state of a process that has just started. *)
Definition initial_world : World :=
  mkWorld initial_config None None false false [] [] [] None.

(** How a call ends: it returns, it panics, or the process exits. *)
Inductive Outcome (A : Type) : Type :=
| Returns (a : A)
| Panics (v : any)
| Exits (code : Z).
Arguments Returns {A} a.
Arguments Panics {A} v.
Arguments Exits {A} code.

Definition M (A : Type) : Type := World -> Outcome A * World.

Definition ret {A} (a : A) : M A := fun w => (Returns a, w).

Definition bind {A B} (m : M A) (k : A -> M B) : M B :=
  fun w =>
    match m w with
    | (Returns a, w') => k a w'
    | (Panics v, w') => (Panics v, w')
    | (Exits c, w') => (Exits c, w')
    end.

Notation "x <- m ;; k" := (bind m (fun x => k))
  (at level 61, m at next level, right associativity).
Notation "m ;;; k" := (bind m (fun _ => k))
  (at level 61, right associativity).

Definition gets {A} (f : World -> A) : M A := fun w => (Returns (f w), w).
Definition modify (f : World -> World) : M unit := fun w => (Returns tt, f w).
Definition panic {A} (v : any) : M A := fun w => (Panics v, w).
Definition os_Exit {A} (code : Z) : M A := fun w => (Exits code, w).

Definition nil_dereference : any :=
  any_other "runtime error: invalid memory address or nil pointer dereference".

(** The bytes written so far that the sink took. *)
Fixpoint written (t : list Event) : string :=
  match t with
  | [] => ""
  | EvWrite _ p None :: t' => p ++ written t'
  | _ :: t' => written t'
  end.

(** The calls of Write in a trace. *)
Fixpoint writes (t : list Event) : list (Writer * string) :=
  match t with
  | [] => []
  | EvWrite wr p _ :: t' => (wr, p) :: writes t'
  | _ :: t' => writes t'
  end.

(** The records built in a trace. *)
Fixpoint records (t : list Event) : list SlogRecord :=
  match t with
  | [] => []
  | EvRecord r :: t' => r :: records t'
  | _ :: t' => records t'
  end.

(* ================================================================== *)
(** ** The handler file: the handler                                   *)
(* ================================================================== *)

(** NewColoredHandler reads the configuration on the first creation. *)
Definition NewColoredHandler (E : Env) (wr : Writer) (lvl : nat)
  : M ColoredHandler :=
  modify (fun w => set_config (initConfig (Getenv E) (config w)) w) ;;;
  ret (mkHandler lvl wr GoSlice.nil_slice []).

(** The value of a slog.LevelVar. *)
Definition LevelVar_Level (w : World) (a : nat) : Z := nth a (levelVars w) 0%Z.

Fixpoint store_level (vars : list Z) (a : nat) (l : Z) : list Z :=
  match vars, a with
  | [], _ => []
  | _ :: vars', O => l :: vars'
  | v :: vars', S b => v :: store_level vars' b l
  end.

(** Set of a slog.LevelVar *)
Definition LevelVar_Set (a : nat) (l : Z) : M unit :=
  modify (fun w => set_levelVars (store_level (levelVars w) a l) w).

Definition Enabled (h : ColoredHandler) (l : Z) : M bool :=
  gets (fun w => (LevelVar_Level w (h_level h) <=? l)%Z).

Definition formatLevelWithColor (c : Config) (l : Z) : string * string :=
  let '(name, color) :=
    if (l <=? LevelTrace)%Z then ("TRACE", colorTrace c)
    else if (l <=? LevelDebug)%Z then ("DEBUG", colorDebug c)
    else if (l <=? LevelInfo)%Z then ("INFO", colorInfo c)
    else if (l <=? LevelWarn)%Z then ("WARN", colorWarn c)
    else if (l <=? LevelError)%Z then ("ERROR", colorError c)
    else if (l <=? LevelFatal)%Z then ("FATAL", colorError c)
    else ("PANIC", colorError c) in
  let paddedName := pad_right 5 name in
  if colorsDisabled c || (color =? "") then (paddedName, "")
  else (color ++ paddedName ++ colorReset c, color).

(** The text between the brackets of the source column: the location
    cut to [sourceWidth] bytes when it has more, and padded by
    [%-*s] otherwise.  ([sourceWidth] is positive in every configuration
    the package can reach, see [sourceWidth_positive] below; the slice
    expression needs that.) *)
Definition fit_source (width : Z) (loc : string) : string :=
  if (width <? Z.of_nat (length loc))%Z
  then take (Z.to_nat width) loc
  else Sprintf_left_star width loc.

(** The source column of Handle, from the frame of the record's PC. *)
Definition format_source (c : Config) (f : Frame) : string :=
  if File f =? "" then ""
  else
    let file := after_last_slash (File f) in
    let loc := file ++ ":" ++ itoa (Line f) in
    let loc := fit_source (sourceWidth c) loc in
    if negb (colorsDisabled c) && negb (colorSource c =? "")
    then colorSource c ++ "[" ++ loc ++ "]" ++ colorReset c
    else "[" ++ loc ++ "]".

(** [" %s=%v"] of one attribute. *)
Definition format_attr (a : Attr) : string :=
  " " ++ Key a ++ "=" ++ fmt_v (Val a).

Fixpoint format_attrs (l : list Attr) : string :=
  match l with
  | [] => ""
  | a :: l' => format_attr a ++ format_attrs l'
  end.

(** The line Handle builds for a record; [bound] are the attributes of
    the handler. *)
Definition format_line (E : Env) (c : Config) (bound : list Attr)
  (r : SlogRecord) : string :=
  let timeStr := FormatTime (RTime r) in
  let '(levelStr, levelColor) := formatLevelWithColor c (RLevel r) in
  let source :=
    if (PC r =? 0)%N then "" else format_source c (FrameOf E (PC r)) in
  let msgContent := Message r ++ format_attrs (RAttrs r) ++ format_attrs bound in
  let msgContent :=
    if negb (colorsDisabled c) && negb (levelColor =? "")
    then levelColor ++ msgContent ++ colorReset c
    else msgContent in
  "[" ++ timeStr ++ "] " ++ levelStr ++ " " ++ source ++ " " ++ msgContent
      ++ String (byte 10) "".

(** One call of Write on a writer: the surroundings decide the result,
    the call is added to the trace. *)
Definition Write (E : Env) (wr : Writer) (p : string) : M (option error) :=
  fun w =>
    let err := WriteResult E (trace w) wr p in
    (Returns err, set_trace (trace w ++ [EvWrite wr p err]) w).

(** Handle formats the record and writes the line; it returns the error
    of the write. *)
Definition Handle (E : Env) (h : ColoredHandler) (r : SlogRecord)
  : M (option error) :=
  msg <- gets (fun w =>
            format_line E (config w) (GoSlice.elems (arrays w) (h_attrs h)) r) ;;
  err <- Write E (h_writer h) msg ;;
  ret err.

Definition WithAttrs (h : ColoredHandler) (attrs : list Attr)
  : M ColoredHandler :=
  fun w =>
    let '(s, hp) := GoSlice.append zeroAttr (arrays w) (h_attrs h) attrs in
    (Returns (mkHandler (h_level h) (h_writer h) s (h_groups h)),
     set_arrays hp w).

(** The attributes a handler is bound to, as Handle reads them. *)
Definition bound_attrs (w : World) (h : ColoredHandler) : list Attr :=
  GoSlice.elems (arrays w) (h_attrs h).

(* ================================================================== *)
(** ** glogi.go: the global logger                                     *)
(* ================================================================== *)

Definition parseLevel (s : string) : Z :=
  let u := ToUpper (TrimSpace s) in
  if u =? "TRACE" then LevelTrace
  else if u =? "DEBUG" then LevelDebug
  else if (u =? "WARN") || (u =? "WARNING") then LevelWarn
  else if u =? "ERROR" then LevelError
  else LevelInfo.

(** Init initializes the global logger; the body runs at most once.
    (slog.SetDefault, which the body also calls, redirects the default
    loggers of slog and log and touches none of the package's state.) *)
Definition Init (E : Env) : M unit :=
  once <- gets initOnce ;;
  if once then ret tt
  else
    a <- gets (fun w => List.length (levelVars w)) ;;
    modify (fun w => set_level (Some a) (set_levelVars (levelVars w ++ [0%Z]) w)) ;;;
    LevelVar_Set a (parseLevel (Getenv E "LOG_LEVEL")) ;;;
    handler <- NewColoredHandler E Stdout a ;;
    modify (set_logger (Some handler)) ;;;
    modify (set_isInit true) ;;;
    modify (set_initOnce true).

(** SetLevel changes the minimum log level at runtime. *)
Definition SetLevel (l : string) : M unit :=
  lv <- gets level ;;
  match lv with
  | Some a => LevelVar_Set a (parseLevel l)
  | None => ret tt
  end.

Definition ensureInit (E : Env) : M unit :=
  i <- gets isInit ;;
  if negb i then Init E else ret tt.

(** The global logger; a nil logger cannot be called. *)
Definition the_logger : M ColoredHandler :=
  l <- gets logger ;;
  match l with
  | Some h => ret h
  | None => panic nil_dereference
  end.

(** runtime.Callers(skip, pcs[:]) with room for one entry, inside a
    function whose callers have the return addresses [frames], the
    nearest first: entry 0 is Callers, entry 1 the function itself. *)
Definition Callers (skip : nat) (frames : list N) : N :=
  match skip with
  | S (S k) => nth k frames 0%N
  | _ => 0%N
  end.

Definition time_Now (E : Env) : M Time := gets (fun w => Now E (trace w)).

(** slog.NewRecord *)
Definition NewRecord (t : Time) (lvl : Z) (msg : string) (pc : N)
  : M SlogRecord :=
  let r := mkRecord t lvl msg pc [] in
  modify (fun w => set_trace (trace w ++ [EvRecord r]) w) ;;;
  ret r.

(** logWithCaller logs with the caller's location; the error of Handle
    is assigned to the blank identifier. *)
Definition logWithCaller (E : Env) (frames : list N) (lvl : Z)
  (msg : string) (args : list any) : M unit :=
  ensureInit E ;;;
  h <- the_logger ;;
  en <- Enabled h lvl ;;
  if negb en then ret tt
  else
    let pc := Callers 3 frames in
    now <- time_Now E ;;
    r <- NewRecord now lvl msg pc ;;
    let r := Add r args in
    _ <- Handle E h r ;;
    ret tt.

(** The entry points.  [frames] are the return addresses of the callers
    of the entry point, the nearest first. *)
Definition Trace (E : Env) (frames : list N) (msg : string) (args : list any)
  : M unit := logWithCaller E (pc_in E "Trace" :: frames) LevelTrace msg args.
Definition Debug (E : Env) (frames : list N) (msg : string) (args : list any)
  : M unit := logWithCaller E (pc_in E "Debug" :: frames) LevelDebug msg args.
Definition Info (E : Env) (frames : list N) (msg : string) (args : list any)
  : M unit := logWithCaller E (pc_in E "Info" :: frames) LevelInfo msg args.
Definition Warn (E : Env) (frames : list N) (msg : string) (args : list any)
  : M unit := logWithCaller E (pc_in E "Warn" :: frames) LevelWarn msg args.
Definition Error (E : Env) (frames : list N) (msg : string) (args : list any)
  : M unit := logWithCaller E (pc_in E "Error" :: frames) LevelError msg args.

Definition Fatal (E : Env) (frames : list N) (msg : string) (args : list any)
  : M unit :=
  logWithCaller E (pc_in E "Fatal" :: frames) LevelFatal msg args ;;;
  os_Exit 1.

Definition PanicLog (E : Env) (frames : list N) (msg : string)
  (args : list any) : M unit :=
  logWithCaller E (pc_in E "PanicLog" :: frames) LevelPanic msg args ;;;
  panic (any_string msg).

(** The builtin recover, called by a deferred function: it yields the
    value of the panic in flight and stops the panic, or nil. *)
Definition recover : M (option any) :=
  r <- gets panicking ;;
  modify (set_panicking None) ;;;
  ret r.

(** Recover catches a panic and logs it with the stack trace. *)
Definition Recover (E : Env) (frames : list N) : M unit :=
  r <- recover ;;
  match r with
  | None => ret tt
  | Some v =>
      ensureInit E ;;;
      let stack := take 4096 (StackDump E) in
      let pc := Callers 2 frames in
      now <- time_Now E ;;
      rec <- NewRecord now LevelPanic
               ("recovered: " ++ fmt_v (AnyValueOf v)) pc ;;
      let rec := Add rec [any_string "stack"; any_string stack] in
      h <- the_logger ;;
      _ <- Handle E h rec ;;
      ret tt
  end.

(** [defer d()] around [body]: [d] runs when [body] returns or panics,
    not when the process exits; a panic that [d] recovers ends there and
    the function returns without a result. *)
Definition deferred {A} (d : M unit) (body : M A) : M (option A) :=
  fun w =>
    match body w with
    | (Returns a, w1) =>
        match d w1 with
        | (Returns _, w2) => (Returns (Some a), w2)
        | (Panics v, w2) => (Panics v, w2)
        | (Exits c, w2) => (Exits c, w2)
        end
    | (Panics v, w1) =>
        match d (set_panicking (Some v) w1) with
        | (Returns _, w2) =>
            match panicking w2 with
            | None => (Returns None, w2)
            | Some v' => (Panics v', set_panicking None w2)
            end
        | (Panics v', w2) => (Panics v', set_panicking None w2)
        | (Exits c, w2) => (Exits c, w2)
        end
    | (Exits c, w1) => (Exits c, w1)
    end.


(* ================================================================== *)
(** ** The handler file: groups                                        *)
(* ================================================================== *)

(** WithGroup returns a handler with the name added to its groups.
    (Nothing in the package reads the groups of a handler; the backing
    array of that slice is not modelled.) *)
Definition WithGroup (h : ColoredHandler) (name : string) : M ColoredHandler :=
  ret (mkHandler (h_level h) (h_writer h) (h_attrs h) (h_groups h ++ [name])).

(* ================================================================== *)
(** ** The compatibility file: the functions of the log package        *)
(* ================================================================== *)

Section Compat.

(** fmt.Sprint and fmt.Sprintf, which format the operands of these
    functions into the message. *)
Variable Sprint : list any -> string.
Variable Sprintf : string -> list any -> string.

(** logCompatWithCaller logs a message without attributes at the
    location of the caller of the function that calls it. *)
Definition logCompatWithCaller (E : Env) (frames : list N) (lvl : Z)
  (msg : string) : M unit :=
  ensureInit E ;;;
  h <- the_logger ;;
  en <- Enabled h lvl ;;
  if negb en then ret tt
  else
    let pc := Callers 3 frames in
    now <- time_Now E ;;
    r <- NewRecord now lvl msg pc ;;
    _ <- Handle E h r ;;
    ret tt.

Definition Print (E : Env) (frames : list N) (v : list any) : M unit :=
  logCompatWithCaller E (pc_in E "Print" :: frames) LevelInfo (Sprint v).

Definition Println (E : Env) (frames : list N) (v : list any) : M unit :=
  logCompatWithCaller E (pc_in E "Println" :: frames) LevelInfo (Sprint v).

Definition Printf (E : Env) (frames : list N) (format : string)
  (v : list any) : M unit :=
  logCompatWithCaller E (pc_in E "Printf" :: frames) LevelInfo
    (Sprintf format v).

Definition Fatalln (E : Env) (frames : list N) (v : list any) : M unit :=
  logCompatWithCaller E (pc_in E "Fatalln" :: frames) LevelFatal (Sprint v) ;;;
  os_Exit 1.

Definition Fatalf (E : Env) (frames : list N) (format : string)
  (v : list any) : M unit :=
  logCompatWithCaller E (pc_in E "Fatalf" :: frames) LevelFatal
    (Sprintf format v) ;;;
  os_Exit 1.

Definition Panic (E : Env) (frames : list N) (v : list any) : M unit :=
  let msg := Sprint v in
  logCompatWithCaller E (pc_in E "Panic" :: frames) LevelPanic msg ;;;
  panic (any_string msg).

Definition Panicln (E : Env) (frames : list N) (v : list any) : M unit :=
  let msg := Sprint v in
  logCompatWithCaller E (pc_in E "Panicln" :: frames) LevelPanic msg ;;;
  panic (any_string msg).

Definition Panicf (E : Env) (frames : list N) (format : string)
  (v : list any) : M unit :=
  let msg := Sprintf format v in
  logCompatWithCaller E (pc_in E "Panicf" :: frames) LevelPanic msg ;;;
  panic (any_string msg).

End Compat.

(* ================================================================== *)
(** ** Programs over the public functions                              *)
(* ================================================================== *)

(** The configuration setters act on the package variables. *)
Definition on_config (f : Config -> Config) : M unit :=
  modify (fun w => set_config (f (config w)) w).

(** A call of a public function that returns to its caller. *)
Inductive Call : Type :=
| CallInit
| CallSetLevel (l : string)
| CallTrace (frames : list N) (msg : string) (args : list any)
| CallDebug (frames : list N) (msg : string) (args : list any)
| CallInfo (frames : list N) (msg : string) (args : list any)
| CallWarn (frames : list N) (msg : string) (args : list any)
| CallError (frames : list N) (msg : string) (args : list any)
| CallRecover (frames : list N)
| CallSetSourceWidth (width : Z)
| CallSetColorTrace (color : string)
| CallSetColorDebug (color : string)
| CallSetColorInfo (color : string)
| CallSetColorWarn (color : string)
| CallSetColorError (color : string)
| CallSetColorSource (color : string)
| CallDisableColors
| CallEnableColors.

Definition run_call (E : Env) (c : Call) : M unit :=
  match c with
  | CallInit => Init E
  | CallSetLevel l => SetLevel l
  | CallTrace frames msg args => Trace E frames msg args
  | CallDebug frames msg args => Debug E frames msg args
  | CallInfo frames msg args => Info E frames msg args
  | CallWarn frames msg args => Warn E frames msg args
  | CallError frames msg args => Error E frames msg args
  | CallRecover frames => Recover E frames
  | CallSetSourceWidth width => on_config (SetSourceWidth width)
  | CallSetColorTrace color => on_config (SetColorTrace color)
  | CallSetColorDebug color => on_config (SetColorDebug color)
  | CallSetColorInfo color => on_config (SetColorInfo color)
  | CallSetColorWarn color => on_config (SetColorWarn color)
  | CallSetColorError color => on_config (SetColorError color)
  | CallSetColorSource color => on_config (SetColorSource color)
  | CallDisableColors => on_config DisableColors
  | CallEnableColors => on_config EnableColors
  end.

(** A program: calls made one after the other. *)
Fixpoint run_calls (E : Env) (cs : list Call) : M unit :=
  match cs with
  | [] => ret tt
  | c :: cs' => run_call E c ;;; run_calls E cs'
  end.
(* ================================================================== *)
(** ** Vocabulary of the statements                                    *)
(* ================================================================== *)

(** The words parseColor knows, in lower case. *)
Definition is_color_word (l : string) : bool :=
  (l =? "red") || (l =? "green") || (l =? "yellow") || (l =? "blue") ||
  (l =? "magenta") || (l =? "cyan") || (l =? "white") || (l =? "gray") ||
  (l =? "grey") || (l =? "none") || (l =? "off").

(** The ANSI sequence for a red foreground. *)
Definition ansi_red : string := String ESC "[31m".

(** The floor in force for a handler: the value of its slog.LevelVar. *)
Definition floor (w : World) (h : ColoredHandler) : Z :=
  LevelVar_Level w (h_level h).

(** The leveled entry points that return to their caller. *)
Inductive EntryPoint : Type := EpTrace | EpDebug | EpInfo | EpWarn | EpError.

Definition entry_level (ep : EntryPoint) : Z :=
  match ep with
  | EpTrace => LevelTrace
  | EpDebug => LevelDebug
  | EpInfo => LevelInfo
  | EpWarn => LevelWarn
  | EpError => LevelError
  end.

Definition call_entry (ep : EntryPoint) (E : Env) (frames : list N)
  (msg : string) (args : list any) : M unit :=
  match ep with
  | EpTrace => Trace E frames msg args
  | EpDebug => Debug E frames msg args
  | EpInfo => Info E frames msg args
  | EpWarn => Warn E frames msg args
  | EpError => Error E frames msg args
  end.

(** The record logWithCaller builds in [w], the line Handle makes of it
    and the result of writing that line. *)
Definition record_of (E : Env) (frames : list N) (lvl : Z) (msg : string)
  (w : World) : SlogRecord :=
  mkRecord (Now E (trace w)) lvl msg (Callers 3 frames) [].

Definition line_of (E : Env) (h : ColoredHandler) (r : SlogRecord) (w : World)
  : string :=
  format_line E (config w) (bound_attrs w h) r.

(** The error of the last call of Write in a trace. *)
Definition last_write_error (t : list Event) : option error :=
  fold_left (fun acc e => match e with
                          | EvWrite _ _ err => err
                          | EvRecord _ => acc
                          end) t None.

(** A call hands the failure of its write to its caller when the way
    the call ended tells the caller the error of the write: there is a
    reading of the outcome that yields, for every run that wrote, the
    error of the write. *)
Definition hands_write_error_to_caller (call : Env -> M unit) : Prop :=
  exists observe : Outcome unit -> option error,
    forall E w,
      writes (trace (snd (call E w))) <> writes (trace w) ->
      observe (fst (call E w)) = last_write_error (trace (snd (call E w))).

(** Texts without the escape byte. *)
Definition no_esc (s : string) : Prop := has_byte ESC s = false.

Definition attr_no_esc (a : Attr) : Prop :=
  no_esc (Key a) /\ no_esc (fmt_v (Val a)).

Definition newline : string := String (byte 10) "".

(** *** Sample surroundings for the concrete runs *)

Definition sample_time : Time := mkTime 2025 12 27 9 20 18.

(** An environment with LOG_LEVEL set to [lvl] and nothing else, a sink
    that fails every write when [fails] holds, and one known call site,
    the PC 7, in [file] at [line]. *)
Definition sample_env (lvl : string) (fails : bool) (file : string) (line : Z)
  : Env :=
  mkEnv (fun name => if name =? "LOG_LEVEL" then lvl else "")
        (fun _ => sample_time)
        (fun pc => if (pc =? 7)%N then mkFrame file line else mkFrame "" 0)
        (fun _ => 1%N)
        "goroutine 1 [running]:"
        (fun _ _ _ => if fails then Some (WriteError "broken pipe") else None).

(** The state after Init in a sample environment. *)
Definition sample_world (E : Env) : World := snd (Init E initial_world).

(** *** The runs behind the two defects *)

(** A file named [é.go] (the letter is two bytes in UTF-8), logged from
    at line 1: the call-site string is [é.go:1], six characters in seven
    bytes. *)
Definition e_acute : string := bytes [195; 169].
Definition accented_site : string := e_acute ++ ".go:1".

(** After Init, the handler of the global logger is derived three times
    in a row, one attribute at a time (as slog.With does through
    WithAttrs); then the last handler is derived twice.  [seen] is what
    the first of the two siblings is bound to before the second one is
    made. *)
Definition attr_s (k v : string) : Attr := mkAttr k (StringValue v).

Definition sibling_run (E : Env)
  : M (ColoredHandler * ColoredHandler * ColoredHandler * list Attr) :=
  Init E ;;;
  h0 <- the_logger ;;
  ha <- WithAttrs h0 [attr_s "a" "1"] ;;
  hb <- WithAttrs ha [attr_s "b" "2"] ;;
  h <- WithAttrs hb [attr_s "c" "3"] ;;
  h1 <- WithAttrs h [attr_s "x" "one"] ;;
  seen <- gets (fun w => bound_attrs w h1) ;;
  h2 <- WithAttrs h [attr_s "y" "two"] ;;
  ret (h, h1, h2, seen).

(** The configurations the package can reach: the declared values,
    changed by initConfig and by the setters. *)
Inductive reachable_config : Config -> Prop :=
| reach_initial : reachable_config initial_config
| reach_initConfig getenv c :
    reachable_config c -> reachable_config (initConfig getenv c)
| reach_SetSourceWidth width c :
    reachable_config c -> reachable_config (SetSourceWidth width c)
| reach_SetColorTrace color c :
    reachable_config c -> reachable_config (SetColorTrace color c)
| reach_SetColorDebug color c :
    reachable_config c -> reachable_config (SetColorDebug color c)
| reach_SetColorInfo color c :
    reachable_config c -> reachable_config (SetColorInfo color c)
| reach_SetColorWarn color c :
    reachable_config c -> reachable_config (SetColorWarn color c)
| reach_SetColorError color c :
    reachable_config c -> reachable_config (SetColorError color c)
| reach_SetColorSource color c :
    reachable_config c -> reachable_config (SetColorSource color c)
| reach_DisableColors c :
    reachable_config c -> reachable_config (DisableColors c)
| reach_EnableColors c :
    reachable_config c -> reachable_config (EnableColors c).

(** *** Vocabulary of the further properties *)

(** The states the public functions keep the process in: the once flag
    and the init flag agree, no panic is in flight, the source width is
    positive, and the logger is either not set up at all or the handler
    Init made, on a level cell that holds one of TRACE to ERROR. *)
Definition world_ok (w : World) : Prop :=
  initOnce w = isInit w /\
  panicking w = None /\
  (0 < sourceWidth (config w))%Z /\
  match logger w, level w with
  | Some h, Some a =>
      isInit w = true /\
      h = mkHandler a Stdout GoSlice.nil_slice [] /\
      (a < List.length (levelVars w))%nat /\
      (LevelTrace <= floor w h <= LevelError)%Z
  | None, None => isInit w = false
  | _, _ => False
  end.

(** The byte [c] occurs in none of the texts Handle and fmt put into a
    line by themselves: digits, the minus sign, the space, the
    punctuation of the format and the letters of the level names. *)
Definition fixed_texts : string :=
  "0123456789- :/[]=%!(BADWIDTH)TRACEDEBUGINFOWARNERRORFATALPANIC".

Definition foreign_byte (c : ascii) : Prop := has_byte c fixed_texts = false.

Definition lacks (c : ascii) (s : string) : Prop := has_byte c s = false.

Definition attr_lacks (c : ascii) (a : Attr) : Prop :=
  lacks c (Key a) /\ lacks c (fmt_v (Val a)).

(** The colors of a configuration have no byte [c]. *)
Definition colors_lack (c : ascii) (cfg : Config) : Prop :=
  lacks c (colorReset cfg) /\ lacks c (colorTrace cfg) /\
  lacks c (colorDebug cfg) /\ lacks c (colorInfo cfg) /\
  lacks c (colorWarn cfg) /\ lacks c (colorError cfg) /\
  lacks c (colorSource cfg).

(** A broken-down time of the common era: a year of up to four digits
    and fields of up to two. *)
Definition four_digit_time (t : Time) : Prop :=
  (0 <= Year t <= 9999)%Z /\ (0 <= Month t <= 99)%Z /\ (0 <= Day t <= 99)%Z /\
  (0 <= Hour t <= 99)%Z /\ (0 <= Minute t <= 99)%Z /\ (0 <= Second t <= 99)%Z.

(** The name and the color formatLevelWithColor picks for a level. *)
Definition level_name (l : Z) : string :=
  if (l <=? LevelTrace)%Z then "TRACE"
  else if (l <=? LevelDebug)%Z then "DEBUG"
  else if (l <=? LevelInfo)%Z then "INFO "
  else if (l <=? LevelWarn)%Z then "WARN "
  else if (l <=? LevelError)%Z then "ERROR"
  else if (l <=? LevelFatal)%Z then "FATAL"
  else "PANIC".

Definition level_color (c : Config) (l : Z) : string :=
  if (l <=? LevelTrace)%Z then colorTrace c
  else if (l <=? LevelDebug)%Z then colorDebug c
  else if (l <=? LevelInfo)%Z then colorInfo c
  else if (l <=? LevelWarn)%Z then colorWarn c
  else colorError c.

(** Sample formatters for the runs of the compatibility functions: the
    operands are joined as they are. *)
Definition sample_Sprint (v : list any) : string :=
  fold_right (fun x s => fmt_v (AnyValueOf x) ++ s) "" v.

Definition sample_Sprintf (format : string) (v : list any) : string :=
  format ++ sample_Sprint v.

(** Every byte of [s] occurs in [alphabet]. *)
Fixpoint within (s alphabet : string) : bool :=
  match s with
  | "" => true
  | String a s' => has_byte a alphabet && within s' alphabet
  end.


(* ================================================================== *)
(** * Facts about the string functions                                 *)
(* ================================================================== *)

Module GoStringsFacts.

Lemma append_nil_r (s : string) : s ++ "" = s.
Proof. induction s as [|a s IH]; simpl; [reflexivity | now rewrite IH]. Qed.

Lemma append_assoc (s t u : string) : (s ++ t) ++ u = s ++ (t ++ u).
Proof. induction s as [|a s IH]; simpl; [reflexivity | now rewrite IH]. Qed.

Lemma length_append (s t : string) : length (s ++ t) = length s + length t.
Proof. induction s as [|a s IH]; simpl; [reflexivity | now rewrite IH]. Qed.

Lemma rev_append (s t : string) : rev (s ++ t) = rev t ++ rev s.
Proof.
  induction s as [|a s IH]; simpl.
  - now rewrite append_nil_r.
  - now rewrite IH, append_assoc.
Qed.

Lemma rev_involutive (s : string) : rev (rev s) = s.
Proof.
  induction s as [|a s IH]; simpl; [reflexivity|].
  now rewrite rev_append, IH.
Qed.

Lemma length_rev (s : string) : length (rev s) = length s.
Proof.
  induction s as [|a s IH]; simpl; [reflexivity|].
  rewrite length_append, IH; simpl; lia.
Qed.

Lemma take_drop (n : nat) (s : string) : take n s ++ drop n s = s.
Proof.
  revert s; induction n as [|n IH]; intros [|a s]; simpl; try reflexivity.
  now rewrite IH.
Qed.

Lemma length_take (n : nat) (s : string) :
  n <= length s -> length (take n s) = n.
Proof.
  revert s; induction n as [|n IH]; intros [|a s]; simpl; intros H;
    try reflexivity; try lia.
  rewrite IH; [reflexivity | lia].
Qed.

Lemma length_drop (n : nat) (s : string) : length (drop n s) = length s - n.
Proof.
  revert s; induction n as [|n IH]; intros [|a s]; simpl; try reflexivity.
  apply IH.
Qed.

Lemma drop_drop (n m : nat) (s : string) : drop n (drop m s) = drop (m + n) s.
Proof.
  revert s; induction m as [|m IH]; intros s; simpl; [reflexivity|].
  destruct s as [|a s]; [now destruct n | apply IH].
Qed.

Lemma length_repeat (a : ascii) (n : nat) : length (repeat a n) = n.
Proof. induction n as [|n IH]; simpl; [reflexivity | now rewrite IH]. Qed.

(** *** Prefixes *)

Lemma HasPrefix_spec (s p : string) :
  HasPrefix s p = true <-> exists u, s = p ++ u.
Proof.
  revert s; induction p as [|a p IH]; intros s; simpl.
  - split; [intros _; now exists s | reflexivity].
  - destruct s as [|b s].
    + split; [discriminate | intros [u Hu]; discriminate].
    + rewrite andb_true_iff, Ascii.eqb_eq, IH; split.
      * intros [<- [u ->]]; now exists u.
      * intros [u Hu]; injection Hu as -> ->; split; [reflexivity | now exists u].
Qed.

Lemma HasPrefix_drop (s p : string) :
  HasPrefix s p = true -> s = p ++ drop (length p) s.
Proof.
  revert s; induction p as [|a p IH]; intros s; simpl; [reflexivity|].
  destruct s as [|b s]; [discriminate|].
  rewrite andb_true_iff, Ascii.eqb_eq; intros [<- H].
  now rewrite <- (IH _ H).
Qed.

Lemma HasPrefix_app (s t p : string) :
  HasPrefix s p = true -> HasPrefix (s ++ t) p = true.
Proof.
  rewrite !HasPrefix_spec; intros [u ->].
  exists (u ++ t); apply append_assoc.
Qed.

Lemma HasPrefix_empty (p : string) : p <> "" -> HasPrefix "" p = false.
Proof. destruct p; [congruence | reflexivity]. Qed.

(** *** Suffixes, through the reversed strings *)

Lemma HasPrefix_rev (s p : string) :
  HasPrefix (rev s) (rev p) = true <-> is_suffix p s.
Proof.
  rewrite HasPrefix_spec; split.
  - intros [u Hu]. exists (rev u).
    rewrite <- (rev_involutive s), Hu, rev_append, rev_involutive.
    reflexivity.
  - intros [u ->]. exists (rev u). apply rev_append.
Qed.

Lemma is_suffix_cons (p : string) (a : ascii) (s : string) :
  is_suffix p (String a s) -> p = String a s \/ is_suffix p s.
Proof.
  intros [[|b u] Hu]; simpl in Hu.
  - now left.
  - right. injection Hu as _ ->. now exists u.
Qed.

Lemma is_suffix_refl (s : string) : is_suffix s s.
Proof. now exists "". Qed.

Lemma is_suffix_String (p : string) (a : ascii) (s : string) :
  is_suffix p s -> is_suffix p (String a s).
Proof. intros [u ->]. now exists (String a u). Qed.

Lemma is_suffix_drop (p : string) (n : nat) (s : string) :
  is_suffix p (drop n s) -> is_suffix p s.
Proof.
  intros [u Hu]. exists (take n s ++ u).
  now rewrite append_assoc, <- Hu, take_drop.
Qed.

(** *** Occurrences of a byte *)

Lemma has_byte_append (c : ascii) (s t : string) :
  has_byte c (s ++ t) = has_byte c s || has_byte c t.
Proof.
  induction s as [|a s IH]; simpl; [reflexivity|].
  now rewrite IH, orb_assoc.
Qed.

Lemma has_byte_rev (c : ascii) (s : string) :
  has_byte c (rev s) = has_byte c s.
Proof.
  induction s as [|a s IH]; simpl; [reflexivity|].
  rewrite has_byte_append, IH; simpl.
  rewrite orb_false_r; apply orb_comm.
Qed.

Lemma has_byte_take (c : ascii) (n : nat) (s : string) :
  has_byte c s = false -> has_byte c (take n s) = false.
Proof.
  revert s; induction n as [|n IH]; intros [|a s]; simpl; try reflexivity.
  rewrite !orb_false_iff; intros [H1 H2]; auto.
Qed.

Lemma has_byte_drop (c : ascii) (n : nat) (s : string) :
  has_byte c s = false -> has_byte c (drop n s) = false.
Proof.
  revert s; induction n as [|n IH]; intros [|a s]; simpl; auto.
  rewrite orb_false_iff; intros [_ H]; auto.
Qed.

Lemma has_byte_repeat (c a : ascii) (n : nat) :
  Ascii.eqb a c = false -> has_byte c (repeat a n) = false.
Proof. intros H; induction n as [|n IH]; simpl; [reflexivity | now rewrite H]. Qed.

Lemma Contains_byte (s : string) (c : ascii) :
  Contains s (String c "") = has_byte c s.
Proof.
  induction s as [|a s IH]; simpl; [reflexivity|].
  now rewrite IH, andb_true_r.
Qed.

Lemma has_byte_after_last_slash (c : ascii) (s : string) :
  has_byte c s = false -> has_byte c (after_last_slash s) = false.
Proof.
  induction s as [|a s IH]; simpl; [reflexivity|].
  rewrite orb_false_iff; intros [Ha Hs].
  destruct (has_byte "/" s); [auto|].
  destruct (Ascii.eqb a "/"); [assumption|].
  simpl; now rewrite Ha, Hs.
Qed.

Lemma after_last_slash_none (s : string) :
  has_byte "/" s = false -> after_last_slash s = s.
Proof.
  destruct s as [|a s]; simpl; [reflexivity|].
  rewrite orb_false_iff; intros [Ha Hs].
  now rewrite Hs, Ha.
Qed.

Lemma after_last_slash_dir (d s : string) :
  has_byte "/" s = false -> after_last_slash (d ++ "/" ++ s) = s.
Proof.
  intros Hs; induction d as [|a d IH]; simpl.
  - now rewrite Hs.
  - rewrite has_byte_append; simpl. rewrite orb_true_r. exact IH.
Qed.

(** *** Trimming *)

Lemma strip_one_None (runes : list string) (s : string) :
  strip_one runes s = None <-> forall p, In p runes -> HasPrefix s p = false.
Proof.
  induction runes as [|q runes IH]; simpl.
  - split; [intros _ p [] | reflexivity].
  - destruct (HasPrefix s q) eqn:Hq.
    + split; [discriminate|]. intros H. rewrite (H q) in Hq; [discriminate | now left].
    + rewrite IH; split.
      * intros H p [<- | Hp]; [assumption | now apply H].
      * intros H p Hp; apply H; now right.
Qed.

Lemma strip_one_Some (runes : list string) (s s' : string) :
  strip_one runes s = Some s' ->
  exists p, In p runes /\ s = p ++ s'.
Proof.
  induction runes as [|q runes IH]; simpl; [discriminate|].
  destruct (HasPrefix s q) eqn:Hq.
  - intros [= <-]. exists q; split; [now left | now apply HasPrefix_drop].
  - intros H; destruct (IH H) as [p [Hp Hs]]. exists p; split; [now right | assumption].
Qed.

Lemma strip_one_prefix (runes : list string) (s t : string) :
  strip_one runes (s ++ t) = None -> strip_one runes s = None.
Proof.
  rewrite !strip_one_None; intros H p Hp.
  destruct (HasPrefix s p) eqn:Hsp; [|reflexivity].
  rewrite <- (H p Hp); symmetry; now apply HasPrefix_app.
Qed.

Section Trim.

Variable runes : list string.
Hypothesis runes_nonempty : forall p, In p runes -> p <> "".

Lemma strip_one_empty : strip_one runes "" = None.
Proof.
  apply strip_one_None; intros p Hp.
  apply HasPrefix_empty; now apply runes_nonempty.
Qed.

Lemma strip_one_shorter (s s' : string) :
  strip_one runes s = Some s' -> length s' < length s.
Proof.
  intros H; destruct (strip_one_Some _ _ _ H) as [p [Hp ->]].
  rewrite length_append.
  specialize (runes_nonempty p Hp). destruct p; [congruence | simpl; lia].
Qed.

Lemma trim_left_fuel_stable (n : nat) (s : string) :
  length s <= n -> strip_one runes (trim_left_fuel n runes s) = None.
Proof.
  revert s; induction n as [|n IH]; intros s Hn; simpl.
  - destruct s; [apply strip_one_empty | simpl in Hn; lia].
  - destruct (strip_one runes s) as [s'|] eqn:Hs; [|assumption].
    apply IH. apply strip_one_shorter in Hs. lia.
Qed.

Lemma trim_left_stable (s : string) :
  strip_one runes (trim_left runes s) = None.
Proof. apply trim_left_fuel_stable; constructor. Qed.

End Trim.

Lemma trim_left_fuel_id (runes : list string) (n : nat) (s : string) :
  strip_one runes s = None -> trim_left_fuel n runes s = s.
Proof. intros H; destruct n; simpl; [reflexivity | now rewrite H]. Qed.

Lemma trim_left_id (runes : list string) (s : string) :
  strip_one runes s = None -> trim_left runes s = s.
Proof. apply trim_left_fuel_id. Qed.

Lemma trim_left_fuel_suffix (runes : list string) (n : nat) (s : string) :
  exists u, s = u ++ trim_left_fuel n runes s.
Proof.
  revert s; induction n as [|n IH]; intros s; simpl; [now exists ""|].
  destruct (strip_one runes s) as [s'|] eqn:Hs; [|now exists ""].
  destruct (strip_one_Some _ _ _ Hs) as [p [_ ->]].
  destruct (IH s') as [u Hu]. exists (p ++ u).
  now rewrite append_assoc, <- Hu.
Qed.

Lemma space_runes_nonempty : forall p, In p space_runes -> p <> "".
Proof.
  intros p Hp ->. revert Hp.
  assert (H : forallb (fun q => negb (q =? "")) space_runes = true)
    by reflexivity.
  rewrite forallb_forall in H. intros Hp. specialize (H _ Hp). discriminate.
Qed.

Lemma rev_space_runes_nonempty :
  forall p, In p (map rev space_runes) -> p <> "".
Proof.
  intros p Hp ->. revert Hp.
  assert (H : forallb (fun q => negb (q =? "")) (map rev space_runes) = true)
    by reflexivity.
  rewrite forallb_forall in H. intros Hp. specialize (H _ Hp). discriminate.
Qed.

Lemma TrimSpace_trimmed (s : string) : trimmed (TrimSpace s).
Proof.
  unfold TrimSpace, TrimRightSpace, TrimLeftSpace, trimmed.
  set (u := trim_left space_runes s).
  set (v := trim_left (map rev space_runes) (rev u)).
  split.
  - destruct (trim_left_fuel_suffix (map rev space_runes)
                (length (rev u)) (rev u)) as [x Hx].
    fold (trim_left (map rev space_runes) (rev u)) in Hx. fold v in Hx.
    assert (Hu : u = rev v ++ rev x).
    { rewrite <- (rev_involutive u), Hx. apply rev_append. }
    apply (strip_one_prefix _ _ (rev x)). rewrite <- Hu.
    apply trim_left_stable, space_runes_nonempty.
  - rewrite rev_involutive.
    apply trim_left_stable, rev_space_runes_nonempty.
Qed.

Lemma TrimSpace_id (s : string) : trimmed s -> TrimSpace s = s.
Proof.
  intros [H1 H2]. unfold TrimSpace, TrimRightSpace, TrimLeftSpace.
  rewrite (trim_left_id _ _ H1), (trim_left_id _ _ H2).
  apply rev_involutive.
Qed.

Lemma TrimSpace_idempotent (s : string) :
  TrimSpace (TrimSpace s) = TrimSpace s.
Proof. apply TrimSpace_id, TrimSpace_trimmed. Qed.

Lemma strip_one_first (runes : list string) (a : ascii) (s : string) :
  starts_some runes a = false -> strip_one runes (String a s) = None.
Proof.
  intros H; apply strip_one_None; intros p Hp.
  unfold starts_some in H.
  destruct (HasPrefix (String a s) p) eqn:Hsp; [|reflexivity].
  assert (Hex : existsb (fun p => match p with
                                  | String b _ => Ascii.eqb b a
                                  | "" => true end) runes = true).
  { apply existsb_exists. exists p; split; [assumption|].
    destruct p as [|b p]; [reflexivity|].
    simpl in Hsp. apply andb_true_iff in Hsp as [Hab _].
    now rewrite Ascii.eqb_sym. }
  congruence.
Qed.

Lemma trimmed_ends (a b : ascii) (s : string) :
  starts_some space_runes a = false ->
  starts_some (map rev space_runes) b = false ->
  trimmed (String a (s ++ String b "")).
Proof.
  intros Ha Hb; split.
  - now apply strip_one_first.
  - change (String a (s ++ String b "")) with (String a "" ++ (s ++ String b "")).
    rewrite !rev_append. cbn [rev append]. now apply strip_one_first.
Qed.

End GoStringsFacts.

(* ================================================================== *)
(** * Facts about parseColor                                           *)
(* ================================================================== *)

Module ParseColorFacts.
Import GoStringsFacts.

(** The replacement parseColor makes: the text form of the escape byte
    becomes the byte. *)
Local Abbreviation unescape_from k s :=
  (replace_from k s escape_text (String ESC "")).

Lemma unescape_cons (a : ascii) (s : string) :
  unescape_from 0 (String a s) =
  if HasPrefix (String a s) escape_text
  then String ESC (unescape_from 3 s)
  else String a (unescape_from 0 s).
Proof. reflexivity. Qed.

Lemma unescape_skip (k : nat) (a : ascii) (s : string) :
  unescape_from (S k) (String a s) = unescape_from k s.
Proof. reflexivity. Qed.

Lemma HasPrefix_cons (a b : ascii) (s p : string) :
  HasPrefix (String a s) (String b p) = Ascii.eqb a b && HasPrefix s p.
Proof. reflexivity. Qed.

Lemma HasPrefix_escape_text (a : ascii) (s : string) :
  HasPrefix (String a s) escape_text = Ascii.eqb a "\" && HasPrefix s "033".
Proof. reflexivity. Qed.

Lemma drop_empty (k : nat) : drop k "" = "".
Proof. now destruct k. Qed.

(** Every replacement leaves an escape byte. *)
Lemma unescape_no_esc (s : string) : forall k,
  has_byte ESC (unescape_from k s) = false -> unescape_from k s = drop k s.
Proof.
  induction s as [|a s IH]; intros k H.
  - now rewrite drop_empty.
  - destruct k as [|k].
    + rewrite unescape_cons in *.
      destruct (HasPrefix (String a s) escape_text).
      * cbn [has_byte] in H. rewrite Ascii.eqb_refl in H. discriminate.
      * cbn [has_byte] in H. apply orb_false_iff in H as [_ H].
        cbn [drop]. f_equal. apply (IH 0 H).
    + rewrite unescape_skip in *. cbn [drop]. now apply IH.
Qed.

Lemma unescape_prefix (s : string) : forall k p,
  has_byte ESC p = false ->
  HasPrefix (unescape_from k s) p = true -> HasPrefix (drop k s) p = true.
Proof.
  induction s as [|a s IH]; intros k p Hp H.
  - now rewrite drop_empty.
  - destruct k as [|k].
    + rewrite unescape_cons in H. cbn [drop].
      destruct p as [|b p]; [reflexivity|].
      cbn [has_byte] in Hp. apply orb_false_iff in Hp as [Hb Hp].
      destruct (HasPrefix (String a s) escape_text).
      * rewrite HasPrefix_cons in H. apply andb_true_iff in H as [H _].
        apply Ascii.eqb_eq in H. subst b. rewrite Ascii.eqb_refl in Hb.
        discriminate.
      * rewrite HasPrefix_cons in *. apply andb_true_iff in H as [-> H].
        apply (IH 0 p Hp H).
    + rewrite unescape_skip in H. cbn [drop]. now apply IH.
Qed.

Lemma unescape_suffix (s : string) : forall k p,
  has_byte ESC p = false ->
  is_suffix p (unescape_from k s) -> is_suffix p (drop k s).
Proof.
  induction s as [|a s IH]; intros k p Hp H.
  - now rewrite drop_empty.
  - destruct k as [|k].
    + rewrite unescape_cons in H. cbn [drop].
      destruct (HasPrefix (String a s) escape_text).
      * apply is_suffix_cons in H as [H | H].
        -- subst p. cbn [has_byte] in Hp. rewrite Ascii.eqb_refl in Hp.
           discriminate.
        -- apply is_suffix_String, (is_suffix_drop _ 3), IH; assumption.
      * apply is_suffix_cons in H as [H | H].
        -- subst p. cbn [has_byte] in Hp. apply orb_false_iff in Hp as [_ Hp].
           rewrite (unescape_no_esc s 0 Hp). apply is_suffix_refl.
        -- apply is_suffix_String. now apply (IH 0).
    + rewrite unescape_skip in H. cbn [drop]. now apply IH.
Qed.

(** Afterwards no text form of the escape byte is left. *)
Lemma unescape_complete (s : string) : forall k,
  Contains (unescape_from k s) escape_text = false.
Proof.
  induction s as [|a s IH]; intros k; [reflexivity|].
  destruct k as [|k]; [|rewrite unescape_skip; apply IH].
  rewrite unescape_cons.
  destruct (HasPrefix (String a s) escape_text) eqn:Hm.
  - cbn [Contains]. rewrite IH, orb_false_r. reflexivity.
  - cbn [Contains]. rewrite IH, orb_false_r.
    rewrite HasPrefix_escape_text in *.
    destruct (Ascii.eqb a "\"); [|reflexivity]. cbn [andb] in *.
    destruct (HasPrefix (unescape_from 0 s) "033") eqn:H; [|reflexivity].
    apply (unescape_prefix s 0) in H; [|reflexivity].
    cbn [drop] in H. congruence.
Qed.

Lemma unescape_nothing (s : string) : forall k,
  Contains (drop k s) escape_text = false -> unescape_from k s = drop k s.
Proof.
  induction s as [|a s IH]; intros k H.
  - now rewrite drop_empty.
  - destruct k as [|k].
    + cbn [drop Contains] in *. apply orb_false_iff in H as [Hm H].
      rewrite unescape_cons, Hm. f_equal. apply (IH 0 H).
    + rewrite unescape_skip. cbn [drop] in *. now apply IH.
Qed.

Lemma unescape_keeps_esc (s : string) : forall k,
  has_byte ESC (drop k s) = true -> has_byte ESC (unescape_from k s) = true.
Proof.
  induction s as [|a s IH]; intros k H.
  - rewrite drop_empty in H. discriminate.
  - destruct k as [|k].
    + rewrite unescape_cons. cbn [drop has_byte] in H.
      destruct (HasPrefix (String a s) escape_text).
      * cbn [has_byte]. now rewrite Ascii.eqb_refl.
      * cbn [has_byte]. apply orb_true_iff in H as [-> | H]; [reflexivity|].
        rewrite (IH 0 H). apply orb_true_r.
    + rewrite unescape_skip. cbn [drop] in H. now apply IH.
Qed.

Lemma unescape_makes_esc (s : string) : forall k,
  Contains (drop k s) escape_text = true ->
  has_byte ESC (unescape_from k s) = true.
Proof.
  induction s as [|a s IH]; intros k H.
  - rewrite drop_empty in H. discriminate.
  - destruct k as [|k].
    + rewrite unescape_cons. cbn [drop Contains] in H.
      destruct (HasPrefix (String a s) escape_text).
      * cbn [has_byte]. now rewrite Ascii.eqb_refl.
      * cbn [orb] in H. cbn [has_byte]. rewrite (IH 0 H). apply orb_true_r.
    + rewrite unescape_skip. cbn [drop] in H. now apply IH.
Qed.

(** No white-space rune contains the escape byte. *)
Lemma space_runes_no_esc (p : string) :
  In p space_runes -> has_byte ESC p = false.
Proof.
  assert (H : forallb (fun q => negb (has_byte ESC q)) space_runes = true)
    by reflexivity.
  rewrite forallb_forall in H. intros Hp. specialize (H _ Hp).
  now apply negb_true_iff in H.
Qed.

Lemma unescape_trimmed (s : string) :
  trimmed s -> trimmed (ReplaceAll s escape_text (String ESC "")).
Proof.
  unfold trimmed, ReplaceAll. rewrite !strip_one_None. intros [H1 H2]; split.
  - intros p Hp. destruct (HasPrefix (unescape_from 0 s) p) eqn:H; [|reflexivity].
    apply (unescape_prefix s 0) in H; [|now apply space_runes_no_esc].
    cbn [drop] in H. rewrite (H1 p Hp) in H. discriminate.
  - intros q Hq. apply in_map_iff in Hq as [p [<- Hp]].
    destruct (HasPrefix (rev (unescape_from 0 s)) (rev p)) eqn:H; [|reflexivity].
    apply HasPrefix_rev in H.
    apply (unescape_suffix s 0) in H; [|now apply space_runes_no_esc].
    cbn [drop] in H. apply HasPrefix_rev in H.
    rewrite (H2 (rev p)) in H; [discriminate|]. now apply in_map.
Qed.

(** *** Lower case keeps the escape byte *)

Lemma lower_cons (a : ascii) (s : string) :
  lower_from 0 (String a s) =
  if HasPrefix (String a s) (bytes [196; 176]) then String "i" (lower_from 1 s)
  else if HasPrefix (String a s) (bytes [226; 132; 170])
       then String "k" (lower_from 2 s)
  else String (lower_byte a) (lower_from 0 s).
Proof. reflexivity. Qed.

Lemma lower_byte_esc (a : ascii) :
  Ascii.eqb a ESC = true -> Ascii.eqb (lower_byte a) ESC = true.
Proof. rewrite Ascii.eqb_eq. now intros ->. Qed.

Lemma lower_keeps_esc (s : string) : forall k,
  has_byte ESC (drop k s) = true -> has_byte ESC (lower_from k s) = true.
Proof.
  induction s as [|a s IH]; intros k H.
  - rewrite drop_empty in H. discriminate.
  - destruct k as [|k]; [|cbn [drop] in H; now apply IH].
    rewrite lower_cons. cbn [drop] in H.
    destruct (HasPrefix (String a s) (bytes [196; 176])) eqn:H1.
    { apply HasPrefix_drop in H1. rewrite H1, has_byte_append in H.
      cbn [has_byte]. rewrite (IH 1); [apply orb_true_r|].
      exact H. }
    destruct (HasPrefix (String a s) (bytes [226; 132; 170])) eqn:H2.
    { apply HasPrefix_drop in H2. rewrite H2, has_byte_append in H.
      cbn [has_byte]. rewrite (IH 2); [apply orb_true_r|].
      exact H. }
    cbn [has_byte] in *. apply orb_true_iff in H as [H | H].
    + now rewrite (lower_byte_esc _ H).
    + rewrite (IH 0 H). apply orb_true_r.
Qed.

Lemma ToLower_esc_neq (s name : string) :
  has_byte ESC s = true -> has_byte ESC name = false ->
  (ToLower s =? name) = false.
Proof.
  intros Hs Hn. apply String.eqb_neq. intros Heq.
  apply (lower_keeps_esc s 0) in Hs. unfold ToLower in Heq. congruence.
Qed.

(** *** Numbers have no backslash *)

Lemma digits_no_backslash (s : string) : forall acc v,
  digits_value acc s = Some v -> has_byte "\" s = false.
Proof.
  induction s as [|a s IH]; intros acc v H; [reflexivity|].
  cbn [digits_value] in H. destruct (is_digit a) eqn:Hd; [|discriminate].
  cbn [has_byte]. rewrite (IH _ _ H), orb_false_r.
  destruct (Ascii.eqb a "\") eqn:Ha; [|reflexivity].
  apply Ascii.eqb_eq in Ha. subst a. discriminate.
Qed.

Lemma signed_no_backslash (neg : bool) (s : string) (z : Z) :
  signed_value neg s = Some z -> has_byte "\" s = false.
Proof.
  unfold signed_value, unsigned_value. destruct s as [|a s]; [reflexivity|].
  destruct (digits_value 0 (String a s)) eqn:E; [|discriminate].
  intros _. now apply (digits_no_backslash _ _ _ E).
Qed.

Lemma Atoi_no_backslash (s : string) (z : Z) :
  Atoi s = Some z -> has_byte "\" s = false.
Proof.
  unfold Atoi. destruct s as [|a s]; [reflexivity|].
  destruct (Ascii.eqb a "+") eqn:Hplus.
  { apply Ascii.eqb_eq in Hplus. subst a. intros H.
    apply signed_no_backslash in H. cbn [has_byte]. now rewrite H. }
  destruct (Ascii.eqb a "-") eqn:Hminus.
  { apply Ascii.eqb_eq in Hminus. subst a. intros H.
    apply signed_no_backslash in H. cbn [has_byte]. now rewrite H. }
  apply signed_no_backslash.
Qed.

Lemma no_backslash_no_escape_text (s : string) :
  has_byte "\" s = false -> Contains s escape_text = false.
Proof.
  induction s as [|a s IH]; [reflexivity|].
  cbn [has_byte Contains]. rewrite orb_false_iff. intros [Ha Hs].
  rewrite (IH Hs), orb_false_r.
  rewrite HasPrefix_escape_text, Ha. reflexivity.
Qed.

(** *** Resolved colors are fixed points *)

Lemma parseColor_escape_fixed (r : string) :
  trimmed r -> has_byte ESC r = true -> Contains r escape_text = false ->
  parseColor r = r.
Proof.
  intros Ht He Hc. unfold parseColor. rewrite (TrimSpace_id r Ht).
  assert (Hne : (r =? "") = false).
  { apply String.eqb_neq. intros ->. discriminate. }
  rewrite Hne.
  rewrite !(ToLower_esc_neq r) by (assumption || reflexivity).
  cbn [orb]. rewrite Contains_byte, He. cbn [orb].
  apply (unescape_nothing r 0 Hc).
Qed.

Lemma parseColor_TrimSpace (c : string) :
  parseColor (TrimSpace c) = parseColor c.
Proof. unfold parseColor. now rewrite TrimSpace_idempotent. Qed.

End ParseColorFacts.

(* ================================================================== *)
(** * Facts about append                                               *)
(* ================================================================== *)

Module GoSliceFacts.
Import GoSlice.
Local Open Scope nat_scope.
Local Open Scope list_scope.

Section Append.

Context {A : Type}.
Variable zero : A.

Lemma array_at_store (hp : heap) (p : nat) (arr : list A) :
  p < List.length hp -> array_at (store_array hp p arr) p = arr.
Proof.
  unfold array_at. revert p; induction hp as [|a hp IH]; intros p H;
    cbn in H; [lia|].
  destruct p as [|p]; cbn; [reflexivity | apply IH; lia].
Qed.

Lemma length_store (hp : heap) (p : nat) (arr : list A) :
  List.length (store_array hp p arr) = List.length hp.
Proof.
  revert p; induction hp as [|a hp IH]; intros p; [reflexivity|].
  destruct p as [|p]; cbn; [reflexivity | now rewrite IH].
Qed.

Lemma firstn_app_exact (l r : list A) : firstn (List.length l) (l ++ r) = l.
Proof.
  rewrite firstn_app, Nat.sub_diag, firstn_all. cbn. apply app_nil_r.
Qed.

Lemma firstn_app_left (n : nat) (l r : list A) :
  n <= List.length l -> firstn n (l ++ r) = firstn n l.
Proof.
  intros H. rewrite firstn_app.
  replace (n - List.length l) with 0 by lia. cbn. apply app_nil_r.
Qed.

(** A derivation has the elements of its parent followed by the new
    ones, and the parent keeps its elements. *)
Lemma append_elems (hp : heap) (s : slice) (xs : list A) :
  slice_ok hp s ->
  elems (snd (append zero hp s xs)) (fst (append zero hp s xs))
  = elems hp s ++ xs /\
  elems (snd (append zero hp s xs)) s = elems hp s.
Proof.
  intros [Hlen Hok]. unfold append.
  destruct xs as [|x xs]; [cbn [fst snd]; split; [symmetry; apply app_nil_r | reflexivity]|].
  set (ys := x :: xs).
  assert (Hys : 0 < List.length ys) by (cbn; lia).
  destruct (len s + List.length ys <=? cap s) eqn:Hfit; cbn [fst snd].
  - apply Nat.leb_le in Hfit.
    destruct Hok as [H0 | [Hp Harr]]; [lia|].
    unfold elems. cbn [ptr len]. rewrite (array_at_store _ _ _ Hp).
    assert (Hf : List.length (firstn (len s) (array_at hp (ptr s))) = len s).
    { rewrite length_firstn. lia. }
    split.
    + rewrite app_assoc.
      replace (len s + List.length ys)
        with (List.length (firstn (len s) (array_at hp (ptr s)) ++ ys))
        by (rewrite length_app; lia).
      apply firstn_app_exact.
    + rewrite <- Hf at 1. apply firstn_app_exact.
  - unfold elems at 1 2. cbn [ptr len]. unfold array_at at 1 2.
    split.
    + rewrite app_nth2, Nat.sub_diag by lia. cbn [nth].
      rewrite app_assoc.
      replace (len s + List.length ys)
        with (List.length (elems hp s ++ ys)).
      * apply firstn_app_exact.
      * rewrite length_app. unfold elems. rewrite length_firstn.
        destruct Hok as [H0 | [Hp Harr]]; [|lia].
        replace (len s) with 0 by lia. reflexivity.
    + destruct Hok as [H0 | [Hp Harr]].
      * unfold elems. replace (len s) with 0 by lia. reflexivity.
      * unfold elems, array_at. now rewrite app_nth1 by lia.
Qed.

(** With room left in the array of the parent, a derivation writes into
    that array, and a second derivation of the same parent overwrites
    what the first one wrote. *)
Lemma append_twice_shared (hp : heap) (s : slice) (x y : A) :
  slice_ok hp s -> len s < cap s ->
  let '(s1, hp1) := append zero hp s [x] in
  let '(s2, hp2) := append zero hp1 s [y] in
  ptr s1 = ptr s /\ ptr s2 = ptr s /\
  elems hp1 s1 = elems hp s ++ [x] /\
  elems hp2 s2 = elems hp s ++ [y] /\
  elems hp2 s1 = elems hp s ++ [y].
Proof.
  intros [Hlen Hok] Hroom.
  destruct Hok as [H0 | [Hp Harr]]; [lia|].
  unfold append. cbn [List.length].
  assert (Hfit : (len s + 1 <=? cap s) = true) by (apply Nat.leb_le; lia).
  rewrite Hfit.
  set (arr := array_at hp (ptr s)).
  set (arr1 := firstn (len s) arr ++ [x] ++ skipn (len s + 1) arr).
  assert (Hp1 : ptr s < List.length (store_array hp (ptr s) arr1))
    by now rewrite length_store.
  assert (Hf : List.length (firstn (len s) arr) = len s).
  { rewrite length_firstn. unfold arr. lia. }
  assert (Hf1 : firstn (len s) arr1 = firstn (len s) arr).
  { unfold arr1. rewrite <- Hf at 1. apply firstn_app_exact. }
  unfold elems. cbn [ptr len].
  rewrite !array_at_store by assumption. fold arr. rewrite Hf1.
  assert (Hx : forall z r, firstn (len s + 1) (firstn (len s) arr ++ [z] ++ r)
                           = firstn (len s) arr ++ [z]).
  { intros z r. rewrite app_assoc.
    replace (len s + 1) with (List.length (firstn (len s) arr ++ [z]))
      by (rewrite length_app; cbn; lia).
    apply firstn_app_exact. }
  repeat split; try reflexivity; apply Hx.
Qed.

End Append.
End GoSliceFacts.

(* ================================================================== *)
(** * Facts about the handler and the logger                           *)
(* ================================================================== *)

Module LoggerFacts.
Import GoStringsFacts.

Lemma set_trace_set_trace (t t' : list Event) (w : World) :
  set_trace t' (set_trace t w) = set_trace t' w.
Proof. reflexivity. Qed.

Lemma trace_set_trace (t : list Event) (w : World) : trace (set_trace t w) = t.
Proof. reflexivity. Qed.

(** Handle makes one call of Write and returns its result. *)
Lemma Handle_spec (E : Env) (h : ColoredHandler) (r : SlogRecord) (w : World) :
  Handle E h r w =
  (Returns (WriteResult E (trace w) (h_writer h) (line_of E h r w)),
   set_trace (trace w ++
              [EvWrite (h_writer h) (line_of E h r w)
                 (WriteResult E (trace w) (h_writer h) (line_of E h r w))]) w).
Proof. reflexivity. Qed.

Lemma ensureInit_initialized (E : Env) (w : World) :
  isInit w = true -> ensureInit E w = (Returns tt, w).
Proof. intros H. unfold ensureInit, bind, gets, ret. now rewrite H. Qed.

(** Init and ensureInit return and leave the trace as it is. *)
Lemma Init_returns (E : Env) (w : World) :
  fst (Init E w) = Returns tt /\ trace (snd (Init E w)) = trace w.
Proof.
  unfold Init, bind, gets, ret. cbn.
  destruct (initOnce w); split; reflexivity.
Qed.

Lemma ensureInit_returns (E : Env) (w : World) :
  fst (ensureInit E w) = Returns tt /\ trace (snd (ensureInit E w)) = trace w.
Proof.
  unfold ensureInit, bind, gets, ret. cbn.
  destruct (isInit w); cbn; [split; reflexivity | apply Init_returns].
Qed.

(** What the first Init sets up. *)
Lemma Init_first (E : Env) (w : World) :
  initOnce w = false ->
  let a := List.length (levelVars w) in
  let h := mkHandler a Stdout GoSlice.nil_slice [] in
  let w' := snd (Init E w) in
  fst (Init E w) = Returns tt /\
  isInit w' = true /\ logger w' = Some h /\ level w' = Some a /\
  floor w' h = parseLevel (Getenv E "LOG_LEVEL") /\
  (a < List.length (levelVars w'))%nat /\
  config w' = initConfig (Getenv E) (config w).
Proof.
  intros H. unfold Init, bind, gets, ret, floor, LevelVar_Level. cbn.
  rewrite H. cbn.
  assert (Hs : forall (vars : list Z) (l : Z),
             store_level (vars ++ [0%Z]) (List.length vars) l = (vars ++ [l])%list).
  { induction vars as [|v vars IH]; intros l; cbn; [reflexivity | now rewrite IH]. }
  rewrite Hs. repeat split.
  - rewrite app_nth2, Nat.sub_diag; [reflexivity | lia].
  - rewrite length_app. cbn. lia.
Qed.

Lemma store_level_nth (vars : list Z) (a : nat) (l : Z) :
  (a < List.length vars)%nat -> nth a (store_level vars a l) 0%Z = l.
Proof.
  revert a; induction vars as [|v vars IH]; intros a H; cbn in H; [lia|].
  destruct a as [|a]; cbn; [reflexivity | apply IH; lia].
Qed.

(** The two ways of logWithCaller once the logger is initialized. *)
Lemma logWithCaller_disabled (E : Env) (frames : list N) (lvl : Z)
  (msg : string) (args : list any) (w : World) (h : ColoredHandler) :
  isInit w = true -> logger w = Some h -> (lvl < floor w h)%Z ->
  logWithCaller E frames lvl msg args w = (Returns tt, w).
Proof.
  intros Hi Hl Hf. unfold logWithCaller. cbv [bind].
  rewrite (ensureInit_initialized E w Hi).
  cbv [the_logger bind gets ret Enabled]. rewrite Hl. cbv beta iota.
  unfold floor in Hf. apply Z.leb_gt in Hf. now rewrite Hf.
Qed.

Lemma logWithCaller_enabled (E : Env) (frames : list N) (lvl : Z)
  (msg : string) (args : list any) (w : World) (h : ColoredHandler) :
  isInit w = true -> logger w = Some h -> (floor w h <= lvl)%Z ->
  let r := record_of E frames lvl msg w in
  let w1 := set_trace (trace w ++ [EvRecord r]) w in
  let line := line_of E h (Add r args) w in
  let err := WriteResult E (trace w1) (h_writer h) line in
  logWithCaller E frames lvl msg args w =
  (Returns tt, set_trace (trace w ++ [EvRecord r; EvWrite (h_writer h) line err]) w).
Proof.
  intros Hi Hl Hf. unfold logWithCaller. cbv [bind].
  rewrite (ensureInit_initialized E w Hi).
  cbv [the_logger bind gets ret Enabled]. rewrite Hl. cbv beta iota.
  unfold floor in Hf. apply Z.leb_le in Hf. rewrite Hf.
  cbv [negb time_Now NewRecord bind gets modify ret].
  rewrite Handle_spec. cbn [trace set_trace fst snd].
  rewrite <- app_assoc. reflexivity.
Qed.

(** *** Texts without the escape byte *)

Lemma no_esc_append (s t : string) : no_esc s -> no_esc t -> no_esc (s ++ t).
Proof. unfold no_esc. intros Hs Ht. now rewrite has_byte_append, Hs, Ht. Qed.

Lemma no_esc_String (a : ascii) (s : string) :
  Ascii.eqb a ESC = false -> no_esc s -> no_esc (String a s).
Proof. unfold no_esc. intros Ha Hs. cbn [has_byte]. now rewrite Ha, Hs. Qed.

Lemma no_esc_uint (d : Decimal.uint) : no_esc (NilEmpty.string_of_uint d).
Proof.
  induction d; cbn [NilEmpty.string_of_uint];
    [reflexivity | apply no_esc_String; [reflexivity | assumption] ..].
Qed.

Lemma no_esc_itoa (z : Z) : no_esc (itoa z).
Proof.
  assert (H : forall d, no_esc (NilZero.string_of_uint d)).
  { intros d. pose proof (no_esc_uint d). destruct d; assumption. }
  unfold itoa, NilZero.string_of_int. destruct (Z.to_int z).
  - apply H.
  - apply no_esc_String; [reflexivity | apply H].
Qed.

Lemma no_esc_repeat (a : ascii) (n : nat) :
  Ascii.eqb a ESC = false -> no_esc (repeat a n).
Proof. intros H. now apply has_byte_repeat. Qed.

Lemma no_esc_appendInt (x : Z) (width : nat) : no_esc (appendInt x width).
Proof.
  unfold appendInt. apply no_esc_append.
  - now destruct (x <? 0)%Z.
  - apply no_esc_append; [now apply no_esc_repeat | apply no_esc_itoa].
Qed.

Lemma no_esc_FormatTime (t : Time) : no_esc (FormatTime t).
Proof.
  unfold FormatTime.
  repeat (apply no_esc_append;
          [first [apply no_esc_appendInt | reflexivity]|]).
  apply no_esc_appendInt.
Qed.

Lemma no_esc_pad_right (width : nat) (s : string) :
  no_esc s -> no_esc (pad_right width s).
Proof. intros H. apply no_esc_append; [assumption | now apply no_esc_repeat]. Qed.

Lemma no_esc_fit_source (width : Z) (loc : string) :
  no_esc loc -> no_esc (fit_source width loc).
Proof.
  intros H. unfold fit_source, Sprintf_left_star.
  destruct (width <? _)%Z; [now apply has_byte_take|].
  destruct (tooLarge width).
  - apply no_esc_append; [reflexivity | assumption].
  - now apply no_esc_pad_right.
Qed.

Lemma no_esc_format_attrs (l : list Attr) :
  Forall attr_no_esc l -> no_esc (format_attrs l).
Proof.
  induction 1 as [|a l [Hk Hv] _ IH]; [reflexivity|].
  cbn [format_attrs]. apply no_esc_append; [|assumption].
  unfold format_attr.
  apply no_esc_append; [reflexivity|].
  apply no_esc_append; [assumption|].
  apply no_esc_append; [reflexivity | assumption].
Qed.

(** With colors disabled the level token is the bare padded name. *)
Lemma formatLevelWithColor_disabled (c : Config) (l : Z) :
  colorsDisabled c = true ->
  snd (formatLevelWithColor c l) = "" /\ no_esc (fst (formatLevelWithColor c l)).
Proof.
  intros H. unfold formatLevelWithColor.
  repeat match goal with
         | |- context [if (l <=? ?x)%Z then _ else _] => destruct (l <=? x)%Z
         end;
    rewrite H; cbn [orb fst snd]; split; reflexivity.
Qed.

Lemma format_source_disabled (c : Config) (f : Frame) :
  colorsDisabled c = true -> no_esc (File f) -> no_esc (format_source c f).
Proof.
  intros H Hf. unfold format_source. destruct (File f =? ""); [reflexivity|].
  rewrite H. cbn [negb andb].
  apply no_esc_append; [reflexivity|].
  apply no_esc_append; [|reflexivity].
  apply no_esc_fit_source, no_esc_append.
  - now apply has_byte_after_last_slash.
  - apply no_esc_append; [reflexivity | apply no_esc_itoa].
Qed.

(** *** The source column *)

(** The width stays positive. *)
Lemma sourceWidth_positive (c : Config) :
  reachable_config c -> (0 < sourceWidth c)%Z.
Proof.
  induction 1 as [|getenv c _ IH|width c _ IH| | | | | | | |];
    try assumption; try reflexivity.
  - unfold initConfig. destruct (configLoaded c); [assumption|].
    repeat match goal with
           | |- context [if (0 <? ?z)%Z then _ else _] =>
               destruct (0 <? z)%Z eqn:?
           | |- context [if ?b then _ else _] => destruct b
           | |- context [match Atoi ?w with _ => _ end] => destruct (Atoi w)
           end; cbn; try assumption; apply Z.ltb_lt; assumption.
  - unfold SetSourceWidth. destruct (0 <? width)%Z eqn:Hw; [|assumption].
    now apply Z.ltb_lt in Hw.
Qed.

Lemma rune_count_ascii (s : string) :
  all_ascii s = true -> RuneCountInString s = length s.
Proof.
  unfold RuneCountInString.
  induction s as [|a s IH]; [reflexivity|].
  cbn [all_ascii]. intros H. apply andb_true_iff in H as [Ha Hs].
  cbn [rune_count_from length rune_size]. rewrite Ha.
  cbn [Nat.sub]. now rewrite IH.
Qed.

Lemma all_ascii_take (n : nat) (s : string) :
  all_ascii s = true -> all_ascii (take n s) = true.
Proof.
  revert s; induction n as [|n IH]; intros [|a s]; cbn; try reflexivity.
  intros H. apply andb_true_iff in H as [Ha Hs].
  apply andb_true_iff. split; [exact Ha | now apply IH].
Qed.

Lemma all_ascii_pad (s : string) (n : nat) :
  all_ascii s = true -> all_ascii (s ++ repeat " " n) = true.
Proof.
  intros H. induction s as [|a s IH].
  - induction n as [|n IHn]; [reflexivity | exact IHn].
  - cbn [all_ascii append] in *. apply andb_true_iff in H as [Ha Hs].
    apply andb_true_iff. split; [exact Ha | now apply IH].
Qed.

(** For a call-site string of ASCII bytes and a width up to the limit of
    fmt, the text between the brackets is the first [W] bytes of the
    string when it is longer, the string padded with spaces otherwise,
    and [W] bytes and characters wide in both cases. *)
Lemma fit_source_ascii (W : Z) (s : string) :
  all_ascii s = true -> (0 < W <= 1000000)%Z ->
  let n := Z.to_nat W in
  (n < length s -> fit_source W s = take n s) /\
  (length s <= n -> fit_source W s = s ++ repeat " " (n - length s)) /\
  length (fit_source W s) = n /\
  RuneCountInString (fit_source W s) = n.
Proof.
  intros Ha HW n.
  assert (Hlong : n < length s -> fit_source W s = take n s).
  { intros H. unfold fit_source.
    replace (W <? Z.of_nat (length s))%Z with true; [reflexivity|].
    symmetry. apply Z.ltb_lt. lia. }
  assert (Hshort : length s <= n ->
                   fit_source W s = s ++ repeat " " (n - length s)).
  { intros H. unfold fit_source, Sprintf_left_star, tooLarge, pad_right.
    replace (W <? Z.of_nat (length s))%Z with false
      by (symmetry; apply Z.ltb_ge; lia).
    replace (1000000 <? W)%Z with false by (symmetry; apply Z.ltb_ge; lia).
    replace (W <? -1000000)%Z with false by (symmetry; apply Z.ltb_ge; lia).
    cbn [orb]. rewrite (rune_count_ascii s Ha).
    replace (Z.to_nat (Z.abs W)) with n by (unfold n; lia). reflexivity. }
  split; [exact Hlong|]. split; [exact Hshort|].
  destruct (Nat.lt_ge_cases n (length s)) as [H | H].
  - rewrite (Hlong H). split.
    + apply length_take. lia.
    + rewrite rune_count_ascii by now apply all_ascii_take.
      apply length_take. lia.
  - rewrite (Hshort H).
    assert (Hl : length (s ++ repeat " " (n - length s)) = n).
    { rewrite length_append, length_repeat. lia. }
    split; [exact Hl|].
    rewrite rune_count_ascii by now apply all_ascii_pad. exact Hl.
Qed.

(** *** Derived handlers *)

(** Right after a derivation the new handler is bound to the attributes
    of its parent followed by the new ones, and the parent is bound to
    what it was bound to. *)
Lemma WithAttrs_derives (h : ColoredHandler) (attrs : list Attr) (w : World) :
  GoSlice.slice_ok (arrays w) (h_attrs h) ->
  exists h' w',
    WithAttrs h attrs w = (Returns h', w') /\
    bound_attrs w' h' = (bound_attrs w h ++ attrs)%list /\
    bound_attrs w' h = bound_attrs w h.
Proof.
  intros Hok. unfold WithAttrs, bound_attrs.
  pose proof (GoSliceFacts.append_elems zeroAttr (arrays w) (h_attrs h) attrs Hok)
    as [H1 H2].
  destruct (GoSlice.append zeroAttr (arrays w) (h_attrs h) attrs) as [s hp].
  cbn [fst snd] in H1, H2. eexists. eexists. split; [reflexivity|].
  cbn [h_attrs arrays set_arrays]. split; assumption.
Qed.

(** When the attribute slice of a handler has room left, two
    derivations of it by one attribute each share the cell behind its
    length: the second one changes what the first is bound to. *)
Lemma WithAttrs_siblings_share (h : ColoredHandler) (x y : Attr) (w : World) :
  GoSlice.slice_ok (arrays w) (h_attrs h) ->
  (GoSlice.len (h_attrs h) < GoSlice.cap (h_attrs h))%nat ->
  exists h1 w1 h2 w2,
    WithAttrs h [x] w = (Returns h1, w1) /\
    WithAttrs h [y] w1 = (Returns h2, w2) /\
    bound_attrs w1 h1 = (bound_attrs w h ++ [x])%list /\
    bound_attrs w2 h2 = (bound_attrs w h ++ [y])%list /\
    bound_attrs w2 h1 = (bound_attrs w h ++ [y])%list.
Proof.
  intros Hok Hroom. unfold WithAttrs, bound_attrs.
  pose proof (GoSliceFacts.append_twice_shared zeroAttr (arrays w) (h_attrs h)
                x y Hok Hroom) as H.
  destruct (GoSlice.append zeroAttr (arrays w) (h_attrs h) [x]) as [s1 hp1].
  exists (mkHandler (h_level h) (h_writer h) s1 (h_groups h)), (set_arrays hp1 w).
  cbn [arrays set_arrays].
  destruct (GoSlice.append zeroAttr hp1 (h_attrs h) [y]) as [s2 hp2].
  destruct H as [_ [_ [H1 [H2 H3]]]].
  do 2 eexists. split; [reflexivity|]. split; [reflexivity|].
  cbn [h_attrs arrays set_arrays]. repeat split; assumption.
Qed.

End LoggerFacts.

(* ================================================================== *)
(** * Facts about the states the package keeps                         *)
(* ================================================================== *)

Module StateFacts.
Import GoStringsFacts LoggerFacts.

Lemma parseLevel_cases (s : string) :
  parseLevel s = LevelTrace \/ parseLevel s = LevelDebug \/
  parseLevel s = LevelInfo \/ parseLevel s = LevelWarn \/
  parseLevel s = LevelError.
Proof.
  unfold parseLevel.
  repeat match goal with
         | |- context [if ?b then _ else _] => destruct b
         end; auto 6.
Qed.

Lemma parseLevel_bounds (s : string) :
  (LevelTrace <= parseLevel s <= LevelError)%Z.
Proof.
  destruct (parseLevel_cases s) as [H | [H | [H | [H | H]]]]; rewrite H;
    unfold LevelTrace, LevelDebug, LevelInfo, LevelWarn, LevelError; lia.
Qed.

Lemma length_store_level (vars : list Z) (a : nat) (l : Z) :
  List.length (store_level vars a l) = List.length vars.
Proof.
  revert a; induction vars as [|v vars IH]; intros a; [reflexivity|].
  destruct a; cbn; [reflexivity | now rewrite IH].
Qed.

Lemma initConfig_width (getenv : string -> string) (c : Config) :
  (0 < sourceWidth c)%Z -> (0 < sourceWidth (initConfig getenv c))%Z.
Proof.
  intros H. unfold initConfig. destruct (configLoaded c); [assumption|].
  repeat match goal with
         | |- context [if (0 <? ?z)%Z then _ else _] =>
             destruct (0 <? z)%Z eqn:?
         | |- context [if ?b then _ else _] => destruct b
         | |- context [match Atoi ?w with _ => _ end] => destruct (Atoi w)
         end; cbn; try assumption; apply Z.ltb_lt; assumption.
Qed.

(** The state the first Init leaves. *)
Lemma Init_run (E : Env) (w : World) :
  initOnce w = false ->
  Init E w =
  (Returns tt,
   mkWorld (initConfig (Getenv E) (config w))
           (Some (mkHandler (List.length (levelVars w)) Stdout
                            GoSlice.nil_slice []))
           (Some (List.length (levelVars w))) true true
           (levelVars w ++ [parseLevel (Getenv E "LOG_LEVEL")])
           (arrays w) (trace w) (panicking w)).
Proof.
  intros H. unfold Init, bind, gets, ret. cbn. rewrite H. cbn.
  assert (Hs : forall (vars : list Z) (l : Z),
             store_level (vars ++ [0%Z]) (List.length vars) l = (vars ++ [l])%list).
  { induction vars as [|v vars IH]; intros l; cbn; [reflexivity | now rewrite IH]. }
  now rewrite Hs.
Qed.

Lemma Init_done (E : Env) (w : World) :
  initOnce w = true -> Init E w = (Returns tt, w).
Proof. intros H. unfold Init, bind, gets, ret. now rewrite H. Qed.

Lemma world_ok_set_trace (t : list Event) (w : World) :
  world_ok w -> world_ok (set_trace t w).
Proof. intros H. exact H. Qed.

Lemma Init_ok (E : Env) (w : World) :
  world_ok w ->
  fst (Init E w) = Returns tt /\
  world_ok (snd (Init E w)) /\ isInit (snd (Init E w)) = true /\
  trace (snd (Init E w)) = trace w /\
  (isInit w = true -> snd (Init E w) = w).
Proof.
  intros Hok. pose proof Hok as [Ho [Hp [Hw Hl]]].
  destruct (initOnce w) eqn:Hi.
  - rewrite (Init_done E w Hi). cbn [fst snd].
    split; [reflexivity|]. split; [exact Hok|].
    split; [now symmetry|]. split; reflexivity.
  - rewrite (Init_run E w Hi). cbn [fst snd].
    split; [reflexivity|]. split; [|split; [reflexivity|split; [reflexivity|]]].
    + unfold world_ok, floor, LevelVar_Level. cbn.
      split; [reflexivity|]. split; [assumption|].
      split; [now apply initConfig_width|].
      split; [reflexivity|]. split; [reflexivity|].
      split; [rewrite length_app; cbn; lia|].
      rewrite app_nth2, Nat.sub_diag by lia. cbn [nth].
      apply parseLevel_bounds.
    + intros H. congruence.
Qed.

Lemma ensureInit_ok (E : Env) (w : World) :
  world_ok w ->
  fst (ensureInit E w) = Returns tt /\
  world_ok (snd (ensureInit E w)) /\ isInit (snd (ensureInit E w)) = true /\
  trace (snd (ensureInit E w)) = trace w /\
  (isInit w = true -> snd (ensureInit E w) = w).
Proof.
  intros Hok. unfold ensureInit, bind, gets, ret.
  destruct (isInit w) eqn:Hi; cbn [negb fst snd].
  - split; [reflexivity|]. split; [exact Hok|].
    split; [exact Hi|]. split; reflexivity.
  - destruct (Init_ok E w Hok) as [H1 [H2 [H3 [H4 _]]]].
    split; [exact H1|]. split; [exact H2|].
    split; [exact H3|]. split; [exact H4 | discriminate].
Qed.

(** In such a state the logger that ensureInit leaves is the handler of
    Init: it writes to the standard output and is bound to nothing. *)
Lemma world_ok_logger (w : World) :
  world_ok w -> isInit w = true ->
  exists h, logger w = Some h /\ h_writer h = Stdout /\
            bound_attrs w h = [] /\
            (LevelTrace <= floor w h <= LevelError)%Z.
Proof.
  intros [Ho [Hp [Hw Hl]]] Hi.
  destruct (logger w) as [h|], (level w) as [a|]; try contradiction.
  - destruct Hl as [_ [-> [_ Hf]]]. eexists.
    split; [reflexivity|]. split; [reflexivity|]. split; [reflexivity|].
    exact Hf.
  - congruence.
Qed.

Lemma logWithCaller_after_ensureInit (E : Env) (frames : list N) (lvl : Z)
  (msg : string) (args : list any) (w : World) :
  world_ok w ->
  logWithCaller E frames lvl msg args w =
  logWithCaller E frames lvl msg args (snd (ensureInit E w)).
Proof.
  intros Hok. destruct (ensureInit_ok E w Hok) as [H1 [_ [H3 _]]].
  unfold logWithCaller. cbv [bind].
  rewrite (ensureInit_initialized E _ H3).
  destruct (ensureInit E w) as [o w1]. cbn [fst snd] in *. now subst o.
Qed.

(** A logging call in such a state: it returns, and it adds to the trace
    its record and its one write exactly when the level is at or above
    the floor. *)
Lemma logWithCaller_ok (E : Env) (frames : list N) (lvl : Z)
  (msg : string) (args : list any) (w : World) :
  world_ok w ->
  let w1 := snd (ensureInit E w) in
  exists h,
    logger w1 = Some h /\ h_writer h = Stdout /\ bound_attrs w1 h = [] /\
    (LevelTrace <= floor w1 h <= LevelError)%Z /\
    logWithCaller E frames lvl msg args w =
    (Returns tt,
     if (floor w1 h <=? lvl)%Z
     then set_trace
            (trace w1 ++
             [EvRecord (record_of E frames lvl msg w1);
              EvWrite Stdout
                (line_of E h (Add (record_of E frames lvl msg w1) args) w1)
                (WriteResult E
                   (trace w1 ++ [EvRecord (record_of E frames lvl msg w1)])
                   Stdout
                   (line_of E h (Add (record_of E frames lvl msg w1) args) w1))])
            w1
     else w1).
Proof.
  intros Hok w1.
  destruct (ensureInit_ok E w Hok) as [_ [Hok1 [Hi1 _]]]. fold w1 in Hok1, Hi1.
  destruct (world_ok_logger w1 Hok1 Hi1) as [h [Hl [Hw [Hb Hf]]]].
  exists h. split; [exact Hl|]. split; [exact Hw|]. split; [exact Hb|].
  split; [exact Hf|].
  rewrite (logWithCaller_after_ensureInit E _ _ _ _ w Hok). fold w1.
  destruct (floor w1 h <=? lvl)%Z eqn:Hen.
  - apply Z.leb_le in Hen.
    rewrite (logWithCaller_enabled E _ _ _ _ w1 h Hi1 Hl Hen).
    cbn [trace set_trace]. now rewrite Hw.
  - apply Z.leb_gt in Hen.
    apply (logWithCaller_disabled E _ _ _ _ w1 h Hi1 Hl Hen).
Qed.

Lemma world_ok_config (f : Config -> Config) (w : World) :
  (forall c, (0 < sourceWidth c)%Z -> (0 < sourceWidth (f c))%Z) ->
  world_ok w -> world_ok (set_config (f (config w)) w).
Proof.
  intros Hf [Ho [Hp [Hw Hl]]]. unfold world_ok. cbn.
  repeat split; auto.
Qed.

Lemma SetLevel_ok (l : string) (w : World) :
  world_ok w ->
  fst (SetLevel l w) = Returns tt /\ world_ok (snd (SetLevel l w)) /\
  trace (snd (SetLevel l w)) = trace w.
Proof.
  intros [Ho [Hp [Hw Hl]]]. unfold SetLevel, bind, gets, ret, LevelVar_Set, modify.
  destruct (level w) as [a|] eqn:Hlv; cbn [fst snd].
  - split; [reflexivity|]. split; [|reflexivity].
    unfold world_ok. cbn. rewrite Hlv.
    destruct (logger w) as [h|]; [|contradiction].
    destruct Hl as [Hi [Hh [Ha Hf]]].
    repeat split; try assumption.
    + now rewrite length_store_level.
    + unfold floor, LevelVar_Level. cbn. subst h. cbn.
      rewrite store_level_nth by assumption. apply parseLevel_bounds.
    + unfold floor, LevelVar_Level. cbn. subst h. cbn.
      rewrite store_level_nth by assumption. apply parseLevel_bounds.
  - split; [reflexivity|]. split; [|reflexivity].
    unfold world_ok. rewrite Hlv. repeat split; assumption.
Qed.

Lemma Recover_quiet (E : Env) (frames : list N) (w : World) :
  panicking w = None -> Recover E frames w = (Returns tt, w).
Proof. intros Hp. destruct w; cbn in Hp; subst. reflexivity. Qed.

(** Every call of the programs keeps the state and returns. *)
Lemma run_call_ok (E : Env) (c : Call) (w : World) :
  world_ok w ->
  fst (run_call E c w) = Returns tt /\ world_ok (snd (run_call E c w)).
Proof.
  intros Hok.
  assert (Hlog : forall frames lvl msg args,
             fst (logWithCaller E frames lvl msg args w) = Returns tt /\
             world_ok (snd (logWithCaller E frames lvl msg args w))).
  { intros frames lvl msg args.
    destruct (logWithCaller_ok E frames lvl msg args w Hok)
      as [h [_ [_ [_ [_ H]]]]].
    rewrite H. cbn [fst snd]. split; [reflexivity|].
    destruct (ensureInit_ok E w Hok) as [_ [Hok1 _]].
    destruct (_ <=? _)%Z; [apply world_ok_set_trace|]; exact Hok1. }
  destruct c; cbn [run_call]; unfold on_config, modify; cbn [fst snd];
    try (apply Hlog);
    try (split; [reflexivity
                | apply world_ok_config; [intros c0 H0; exact H0 | exact Hok]]).
  - destruct (Init_ok E w Hok) as [H1 [H2 _]]. now split.
  - destruct (SetLevel_ok l w Hok) as [H1 [H2 _]]. now split.
  - pose proof Hok as [_ [Hp _]]. rewrite (Recover_quiet E frames w Hp).
    split; [reflexivity | exact Hok].
  - split; [reflexivity|]. apply world_ok_config; [|assumption].
    intros c0 H0. unfold SetSourceWidth.
    destruct (0 <? width)%Z eqn:Hwd; [now apply Z.ltb_lt in Hwd | assumption].
Qed.

End StateFacts.

Module PanicFacts.
Import GoStringsFacts LoggerFacts StateFacts.

Lemma set_panicking_back (v : any) (w : World) :
  panicking w = None -> set_panicking None (set_panicking (Some v) w) = w.
Proof. intros H. destruct w; cbn in H; subst. reflexivity. Qed.

(** Recover with a panic in flight: the panic is stopped, the logger is
    initialized if need be, and one PANIC record is built and written,
    without a look at the floor. *)
Lemma Recover_panicking (E : Env) (frames : list N) (v : any) (w : World) :
  world_ok w ->
  let w1 := snd (ensureInit E w) in
  let r := mkRecord (Now E (trace w1)) LevelPanic
                    ("recovered: " ++ fmt_v (AnyValueOf v))
                    (Callers 2 frames) [] in
  let r' := Add r [any_string "stack"; any_string (take 4096 (StackDump E))] in
  exists h,
    logger w1 = Some h /\ h_writer h = Stdout /\ bound_attrs w1 h = [] /\
    Recover E frames (set_panicking (Some v) w) =
    (Returns tt,
     set_trace (trace w1 ++
                [EvRecord r;
                 EvWrite Stdout (line_of E h r' w1)
                   (WriteResult E (trace w1 ++ [EvRecord r]) Stdout
                                (line_of E h r' w1))]) w1).
Proof.
  intros Hok w1 r r'.
  destruct (ensureInit_ok E w Hok) as [Hr [Hok1 [Hi1 _]]]. fold w1 in Hok1, Hi1.
  destruct (world_ok_logger w1 Hok1 Hi1) as [h [Hl [Hw [Hb _]]]].
  exists h. split; [exact Hl|]. split; [exact Hw|]. split; [exact Hb|].
  pose proof Hok as [_ [Hp _]].
  unfold Recover, recover. cbv [bind gets modify ret].
  change (panicking (set_panicking (Some v) w)) with (Some v). cbv beta iota.
  rewrite (set_panicking_back v w Hp).
  unfold w1 in *. destruct (ensureInit E w) as [o w2]. cbn [fst snd] in *.
  subst o. cbv [time_Now NewRecord the_logger bind gets modify ret].
  cbn [logger set_trace]. rewrite Hl. rewrite Handle_spec.
  cbn [trace set_trace]. rewrite Hw, <- app_assoc. reflexivity.
Qed.

(** PanicLog in a state the package keeps: the record is written, then
    the message is the value of the panic. *)
Lemma PanicLog_run (E : Env) (frames : list N) (msg : string)
  (args : list any) (w : World) :
  world_ok w ->
  let w1 := snd (ensureInit E w) in
  let r := record_of E (pc_in E "PanicLog" :: frames) LevelPanic msg w1 in
  exists h,
    logger w1 = Some h /\
    PanicLog E frames msg args w =
    (Panics (any_string msg),
     set_trace (trace w ++
                [EvRecord r;
                 EvWrite Stdout (line_of E h (Add r args) w1)
                   (WriteResult E (trace w1 ++ [EvRecord r]) Stdout
                                (line_of E h (Add r args) w1))]) w1).
Proof.
  intros Hok w1 r.
  destruct (logWithCaller_ok E (pc_in E "PanicLog" :: frames) LevelPanic msg
              args w Hok) as [h [Hl [_ [_ [Hf H]]]]].
  destruct (ensureInit_ok E w Hok) as [_ [_ [_ [Ht _]]]].
  fold w1 in Hl, Hf, H, Ht.
  assert (Hen : (floor w1 h <=? LevelPanic)%Z = true).
  { apply Z.leb_le. unfold LevelPanic, LevelError in *. lia. }
  rewrite Hen in H. exists h. split; [exact Hl|].
  unfold PanicLog, bind. rewrite H. fold r. now rewrite Ht.
Qed.

End PanicFacts.

Module ConfigFacts.

Lemma initConfig_loaded (getenv : string -> string) (c : Config) :
  configLoaded (initConfig getenv c) = true.
Proof.
  unfold initConfig. destruct (configLoaded c) eqn:H; [exact H|].
  repeat match goal with
         | |- context [if ?b then _ else _] => destruct b
         | |- context [match Atoi ?w with _ => _ end] => destruct (Atoi w)
         end; reflexivity.
Qed.

Lemma store_level_twice (vars : list Z) (a : nat) (x y : Z) :
  store_level (store_level vars a x) a y = store_level vars a y.
Proof.
  revert a; induction vars as [|v vars IH]; intros a; [reflexivity|].
  destruct a; cbn; [reflexivity | now rewrite IH].
Qed.

End ConfigFacts.

Module DeriveFacts.
Import GoSlice GoSliceFacts.
Local Open Scope nat_scope.
Local Open Scope list_scope.

Section Keep.

Context {A : Type}.
Variable zero : A.

Lemma array_at_store_other (hp : heap) (p q : nat) (arr : list A) :
  p <> q -> array_at (store_array hp p arr) q = array_at hp q.
Proof.
  unfold array_at. revert p q; induction hp as [|a hp IH]; intros p q H;
    [reflexivity|].
  destruct p as [|p], q as [|q]; cbn; try reflexivity; try lia.
  apply IH. lia.
Qed.

(** append keeps the headers that fit the heap fitting, and the slice
    it returns fits as well. *)
Lemma append_slice_ok (hp : heap (A := A)) (s : slice) (xs : list A) :
  slice_ok hp s ->
  slice_ok (snd (append zero hp s xs)) (fst (append zero hp s xs)) /\
  forall s0, slice_ok hp s0 -> slice_ok (snd (append zero hp s xs)) s0.
Proof.
  intros [Hlen Hok]. unfold append.
  destruct xs as [|x xs]; [cbn [fst snd]; split; [split; assumption | auto]|].
  set (ys := x :: xs).
  assert (Hys : 0 < List.length ys) by (cbn; lia).
  destruct (len s + List.length ys <=? cap s) eqn:Hfit; cbn [fst snd].
  - apply Nat.leb_le in Hfit.
    destruct Hok as [H0 | [Hp Harr]]; [lia|].
    assert (Hl : List.length (firstn (len s) (array_at hp (ptr s)) ++ ys ++
                              skipn (len s + List.length ys) (array_at hp (ptr s)))
                 = cap s).
    { rewrite !length_app, length_firstn, length_skipn. lia. }
    split.
    + split; cbn [len cap ptr]; [lia|]. right.
      rewrite length_store, array_at_store by assumption. now split.
    + intros s0 [Hlen0 Hok0]. split; [assumption|].
      destruct Hok0 as [H0 | [Hp0 Harr0]]; [now left | right].
      rewrite length_store. split; [assumption|].
      destruct (Nat.eq_dec (ptr s) (ptr s0)) as [Heq | Hne].
      * rewrite <- Heq, array_at_store by assumption.
        rewrite Hl. rewrite <- Heq in Harr0. congruence.
      * now rewrite array_at_store_other.
  - apply Nat.leb_gt in Hfit.
    assert (Hcap : len s + List.length ys
                   <= nextslicecap (len s + List.length ys) (cap s)).
    { unfold nextslicecap.
      destruct (cap s + cap s <? len s + List.length ys) eqn:H1; [lia|].
      apply Nat.ltb_ge in H1.
      destruct (cap s <? 256) eqn:H2; [lia|].
      assert (Hg : forall fuel newcap newLen,
                 newLen <= newcap + fuel * 192 ->
                 newLen <= grow_quarter fuel newcap newLen).
      { induction fuel as [|fuel IH]; intros newcap newLen H; cbn [grow_quarter].
        - lia.
        - destruct (newLen <=? newcap + (newcap + 3 * 256) / 4) eqn:H3.
          + now apply Nat.leb_le in H3.
          + apply IH.
            assert (192 <= (newcap + 3 * 256) / 4).
            { apply Nat.div_le_lower_bound; lia. }
            lia. }
      apply Hg. lia. }
    split.
    + split; cbn [len cap ptr]; [exact Hcap|]. right.
      rewrite length_app. cbn [List.length]. split; [lia|].
      unfold array_at. rewrite app_nth2, Nat.sub_diag by lia. cbn [nth].
      rewrite !length_app, repeat_length. unfold elems.
      rewrite length_firstn.
      destruct Hok as [H0 | [Hp Harr]]; lia.
    + intros s0 [Hlen0 Hok0]. split; [assumption|].
      destruct Hok0 as [H0 | [Hp0 Harr0]]; [now left | right].
      rewrite length_app. cbn [List.length]. split; [lia|].
      unfold array_at in *. now rewrite app_nth1 by lia.
Qed.

End Keep.
End DeriveFacts.

Module LineFacts.
Import GoStringsFacts LoggerFacts.

Lemma format_attrs_app (l1 l2 : list Attr) :
  format_attrs (l1 ++ l2) = format_attrs l1 ++ format_attrs l2.
Proof.
  induction l1 as [|a l1 IH]; [reflexivity|].
  cbn [format_attrs List.app]. now rewrite IH, append_assoc.
Qed.

(** The line is the message and the attributes, in their order, between
    a head and a tail that do not depend on them. *)
Lemma format_line_split (E : Env) (c : Config) (r : SlogRecord) :
  exists head tail,
    forall bound,
      format_line E c bound r =
      head ++ (Message r ++ format_attrs (RAttrs r) ++ format_attrs bound) ++ tail.
Proof.
  unfold format_line.
  destruct (formatLevelWithColor c (RLevel r)) as [levelStr levelColor].
  destruct (negb (colorsDisabled c) && negb (levelColor =? "")).
  - exists ("[" ++ FormatTime (RTime r) ++ "] " ++ levelStr ++ " " ++
            (if (PC r =? 0)%N then "" else format_source c (FrameOf E (PC r)))
            ++ " " ++ levelColor),
           (colorReset c ++ String (byte 10) "").
    intros bound. now rewrite !append_assoc.
  - exists ("[" ++ FormatTime (RTime r) ++ "] " ++ levelStr ++ " " ++
            (if (PC r =? 0)%N then "" else format_source c (FrameOf E (PC r)))
            ++ " "),
           (String (byte 10) "").
    intros bound. now rewrite !append_assoc.
Qed.

Lemma WithAttrs_config (h : ColoredHandler) (attrs : list Attr) (w : World) :
  config (snd (WithAttrs h attrs w)) = config w.
Proof.
  unfold WithAttrs.
  destruct (GoSlice.append zeroAttr (arrays w) (h_attrs h) attrs). reflexivity.
Qed.

End LineFacts.

Module AlphabetFacts.
Import GoStringsFacts.

Lemma has_byte_neq (a c : ascii) (alphabet : string) :
  has_byte a alphabet = true -> has_byte c alphabet = false ->
  Ascii.eqb a c = false.
Proof.
  intros Ha Hc. destruct (Ascii.eqb a c) eqn:H; [|reflexivity].
  apply Ascii.eqb_eq in H. subst. congruence.
Qed.

Lemma within_lacks (c : ascii) (s alphabet : string) :
  within s alphabet = true -> has_byte c alphabet = false ->
  has_byte c s = false.
Proof.
  intros Hs Hc. induction s as [|a s IH]; [reflexivity|].
  cbn [within] in Hs. apply andb_true_iff in Hs as [Ha Hs].
  cbn [has_byte]. now rewrite (has_byte_neq a c alphabet Ha Hc), IH.
Qed.

Lemma within_append (s t alphabet : string) :
  within (s ++ t) alphabet = within s alphabet && within t alphabet.
Proof.
  induction s as [|a s IH]; [reflexivity|].
  cbn [append within]. now rewrite IH, andb_assoc.
Qed.

Lemma within_repeat (a : ascii) (n : nat) (alphabet : string) :
  has_byte a alphabet = true -> within (repeat a n) alphabet = true.
Proof. intros H. induction n as [|n IH]; [reflexivity|]. cbn. now rewrite H. Qed.

Lemma within_take (n : nat) (s alphabet : string) :
  within s alphabet = true -> within (take n s) alphabet = true.
Proof.
  revert s; induction n as [|n IH]; intros [|a s]; cbn; try reflexivity.
  intros H. apply andb_true_iff in H as [Ha Hs]. now rewrite Ha, IH.
Qed.

Lemma within_weaken (s alphabet alphabet' : string) :
  within alphabet alphabet' = true -> within s alphabet = true ->
  within s alphabet' = true.
Proof.
  intros Hsub. induction s as [|a s IH]; [reflexivity|].
  cbn [within]. intros H. apply andb_true_iff in H as [Ha Hs].
  rewrite (IH Hs), andb_true_r. clear - Hsub Ha.
  induction alphabet as [|b alphabet IH]; [discriminate|].
  cbn [within has_byte] in *. apply andb_true_iff in Hsub as [Hb Hsub].
  apply orb_true_iff in Ha as [Ha | Ha].
  - apply Ascii.eqb_eq in Ha. now subst.
  - now apply IH.
Qed.


(** *** Decimal digits *)

Lemma within_uint (d : Decimal.uint) :
  within (NilEmpty.string_of_uint d) "0123456789" = true.
Proof. induction d; cbn [NilEmpty.string_of_uint within]; auto. Qed.

Lemma within_itoa (z : Z) : within (itoa z) "-0123456789" = true.
Proof.
  assert (H : forall d, within (NilZero.string_of_uint d) "-0123456789" = true).
  { intros d. apply (within_weaken _ "0123456789"); [reflexivity|].
    pose proof (within_uint d). destruct d; assumption || reflexivity. }
  unfold itoa, NilZero.string_of_int. destruct (Z.to_int z); [apply H|].
  cbn [within]. now rewrite H.
Qed.

Lemma all_ascii_within (s alphabet : string) :
  all_ascii alphabet = true -> within s alphabet = true -> all_ascii s = true.
Proof.
  intros Ha. induction s as [|b s IH]; [reflexivity|].
  cbn [within all_ascii]. intros H. apply andb_true_iff in H as [Hb Hs].
  rewrite (IH Hs), andb_true_r. clear - Ha Hb.
  induction alphabet as [|x alphabet IH]; [discriminate|].
  cbn [all_ascii has_byte] in *. apply andb_true_iff in Ha as [Hx Ha].
  apply orb_true_iff in Hb as [Hb | Hb].
  - apply Ascii.eqb_eq in Hb. now subst.
  - now apply IH.
Qed.

(** *** The numbers Atoi accepts *)






End AlphabetFacts.

Module ColumnFacts.
Import GoStringsFacts LoggerFacts AlphabetFacts.

Lemma lacks_append (c : ascii) (s t : string) :
  lacks c s -> lacks c t -> lacks c (s ++ t).
Proof. unfold lacks. intros Hs Ht. now rewrite has_byte_append, Hs, Ht. Qed.

Lemma lacks_fixed (c : ascii) (s : string) :
  foreign_byte c -> within s fixed_texts = true -> lacks c s.
Proof. intros Hc Hs. exact (within_lacks c s fixed_texts Hs Hc). Qed.

Lemma within_appendInt (x : Z) (width : nat) :
  within (appendInt x width) "-0123456789" = true.
Proof.
  unfold appendInt. rewrite !within_append.
  rewrite within_repeat by reflexivity. rewrite within_itoa.
  now destruct (x <? 0)%Z.
Qed.

Lemma within_FormatTime (t : Time) : within (FormatTime t) fixed_texts = true.
Proof.
  apply (within_weaken _ "-0123456789/: "); [reflexivity|].
  unfold FormatTime. rewrite !within_append.
  assert (H : forall x w, within (appendInt x w) "-0123456789/: " = true).
  { intros x w. apply (within_weaken _ "-0123456789"); [reflexivity|].
    apply within_appendInt. }
  now rewrite !H.
Qed.

(** The two results of formatLevelWithColor. *)
Lemma formatLevelWithColor_shape (c : Config) (l : Z) :
  formatLevelWithColor c l =
  if colorsDisabled c || (level_color c l =? "")
  then (level_name l, "")
  else (level_color c l ++ level_name l ++ colorReset c, level_color c l).
Proof.
  unfold formatLevelWithColor, level_name, level_color.
  repeat match goal with
         | |- context [if (l <=? ?x)%Z then _ else _] => destruct (l <=? x)%Z
         end; reflexivity.
Qed.

Lemma length_level_name (l : Z) : length (level_name l) = 5.
Proof.
  unfold level_name.
  repeat match goal with
         | |- context [if (l <=? ?x)%Z then _ else _] => destruct (l <=? x)%Z
         end; reflexivity.
Qed.

Lemma within_level_name (l : Z) : within (level_name l) fixed_texts = true.
Proof.
  unfold level_name.
  repeat match goal with
         | |- context [if (l <=? ?x)%Z then _ else _] => destruct (l <=? x)%Z
         end; reflexivity.
Qed.

Lemma lacks_level_color (c : ascii) (cfg : Config) (l : Z) :
  colors_lack c cfg -> lacks c (level_color cfg l).
Proof.
  intros [_ [H1 [H2 [H3 [H4 [H5 _]]]]]]. unfold level_color.
  repeat match goal with
         | |- context [if (l <=? ?x)%Z then _ else _] => destruct (l <=? x)%Z
         end; assumption.
Qed.

Lemma lacks_fit_source (c : ascii) (width : Z) (loc : string) :
  foreign_byte c -> lacks c loc -> lacks c (fit_source width loc).
Proof.
  intros Hc H. unfold fit_source, Sprintf_left_star, pad_right.
  destruct (width <? _)%Z; [now apply has_byte_take|].
  destruct (tooLarge width).
  - apply lacks_append; [now apply lacks_fixed | assumption].
  - apply lacks_append; [assumption|].
    apply lacks_fixed; [assumption | now apply within_repeat].
Qed.

Lemma lacks_format_source (c : ascii) (cfg : Config) (f : Frame) :
  foreign_byte c -> colors_lack c cfg -> lacks c (File f) ->
  lacks c (format_source cfg f).
Proof.
  intros Hc [Hr [_ [_ [_ [_ [_ Hs]]]]]] Hf. unfold format_source.
  destruct (File f =? ""); [reflexivity|].
  assert (Hloc : lacks c (fit_source (sourceWidth cfg)
                            (after_last_slash (File f) ++ ":" ++ itoa (Line f)))).
  { apply lacks_fit_source; [assumption|]. apply lacks_append.
    - now apply has_byte_after_last_slash.
    - apply lacks_fixed; [assumption|].
      change (":" ++ itoa (Line f)) with (String ":" (itoa (Line f))).
      cbn [within]. apply andb_true_iff. split; [reflexivity|].
      apply (within_weaken _ "-0123456789"); [reflexivity | apply within_itoa]. }
  assert (Hb : lacks c ("[" ++ fit_source (sourceWidth cfg)
                          (after_last_slash (File f) ++ ":" ++ itoa (Line f))
                        ++ "]")).
  { apply lacks_append; [now apply lacks_fixed|].
    apply lacks_append; [assumption | now apply lacks_fixed]. }
  destruct (negb (colorsDisabled cfg) && negb (colorSource cfg =? ""));
    [|exact Hb].
  apply lacks_append; [assumption|].
  apply lacks_append; [now apply lacks_fixed|].
  apply lacks_append; [assumption|].
  apply lacks_append; [now apply lacks_fixed | assumption].
Qed.

Lemma lacks_format_attrs (c : ascii) (l : list Attr) :
  foreign_byte c -> Forall (attr_lacks c) l -> lacks c (format_attrs l).
Proof.
  intros Hc. induction 1 as [|a l [Hk Hv] _ IH]; [reflexivity|].
  cbn [format_attrs]. apply lacks_append; [|assumption].
  unfold format_attr.
  apply lacks_append; [now apply lacks_fixed|].
  apply lacks_append; [assumption|].
  apply lacks_append; [now apply lacks_fixed | assumption].
Qed.

(** The line is a body and the newline; a byte that Handle does not put
    in by itself is in the body only if the message, an attribute, the
    file name or a color has it. *)
Lemma format_line_body (E : Env) (cfg : Config) (bound : list Attr)
  (r : SlogRecord) :
  exists body,
    format_line E cfg bound r = body ++ String (byte 10) "" /\
    forall c,
      foreign_byte c -> colors_lack c cfg ->
      lacks c (Message r) ->
      Forall (attr_lacks c) (RAttrs r) -> Forall (attr_lacks c) bound ->
      lacks c (File (FrameOf E (PC r))) ->
      lacks c body.
Proof.
  unfold format_line. rewrite formatLevelWithColor_shape.
  set (content := Message r ++ format_attrs (RAttrs r) ++ format_attrs bound).
  set (source := if (PC r =? 0)%N then ""
                 else format_source cfg (FrameOf E (PC r))).
  assert (Hcontent : forall c, foreign_byte c -> lacks c (Message r) ->
                               Forall (attr_lacks c) (RAttrs r) ->
                               Forall (attr_lacks c) bound -> lacks c content).
  { intros c Hc Hm Ha Hb. apply lacks_append; [assumption|].
    apply lacks_append; now apply lacks_format_attrs. }
  assert (Hsource : forall c, foreign_byte c -> colors_lack c cfg ->
                              lacks c (File (FrameOf E (PC r))) ->
                              lacks c source).
  { intros c Hc Hcol Hf. unfold source.
    destruct (PC r =? 0)%N; [reflexivity | now apply lacks_format_source]. }
  destruct (colorsDisabled cfg || (level_color cfg (RLevel r) =? "")) eqn:Hplain.
  - exists ("[" ++ FormatTime (RTime r) ++ "] " ++ level_name (RLevel r) ++ " "
            ++ source ++ " " ++ content).
    split.
    + replace (negb (colorsDisabled cfg) && negb ("" =? "")) with false
        by (now destruct (colorsDisabled cfg)).
      now rewrite !append_assoc.
    + intros c Hc Hcol Hm Ha Hb Hf.
      apply lacks_append; [now apply lacks_fixed|].
      apply lacks_append; [apply lacks_fixed; [assumption | apply within_FormatTime]|].
      apply lacks_append; [now apply lacks_fixed|].
      apply lacks_append;
        [apply lacks_fixed; [assumption | apply within_level_name]|].
      apply lacks_append; [now apply lacks_fixed|].
      apply lacks_append; [now apply Hsource|].
      apply lacks_append; [now apply lacks_fixed | now apply Hcontent].
  - apply orb_false_iff in Hplain as [Hd Hne]. rewrite Hd, Hne. cbn [negb andb].
    exists ("[" ++ FormatTime (RTime r) ++ "] " ++
            (level_color cfg (RLevel r) ++ level_name (RLevel r) ++ colorReset cfg)
            ++ " " ++ source ++ " " ++
            level_color cfg (RLevel r) ++ content ++ colorReset cfg).
    split; [now rewrite !append_assoc|].
    intros c Hc Hcol Hm Ha Hb Hf.
    pose proof (lacks_level_color c cfg (RLevel r) Hcol) as Hlc.
    pose proof Hcol as [Hreset _].
    apply lacks_append; [now apply lacks_fixed|].
    apply lacks_append; [apply lacks_fixed; [assumption | apply within_FormatTime]|].
    apply lacks_append; [now apply lacks_fixed|].
    apply lacks_append.
    { apply lacks_append; [assumption|].
      apply lacks_append;
        [apply lacks_fixed; [assumption | apply within_level_name] | assumption]. }
    apply lacks_append; [now apply lacks_fixed|].
    apply lacks_append; [now apply Hsource|].
    apply lacks_append; [now apply lacks_fixed|].
    apply lacks_append; [assumption|].
    apply lacks_append; [now apply Hcontent | assumption].
Qed.

(** *** Widths *)

Lemma length_appendInt_2 (x : Z) :
  (0 <= x <= 99)%Z -> length (appendInt x 2) = 2.
Proof.
  intros H.
  assert (Hall : forallb (fun n => Nat.eqb (length (appendInt (Z.of_nat n) 2)) 2)
                         (seq 0 100) = true) by (vm_compute; reflexivity).
  rewrite forallb_forall in Hall. specialize (Hall (Z.to_nat x)).
  rewrite Z2Nat.id in Hall by lia.
  apply Nat.eqb_eq, Hall, in_seq. lia.
Qed.

Lemma length_appendInt_4 (x : Z) :
  (0 <= x <= 9999)%Z -> length (appendInt x 4) = 4.
Proof.
  intros H.
  assert (Hall : forallb (fun n => Nat.eqb (length (appendInt (Z.of_nat n) 4)) 4)
                         (seq 0 (100 * 100)) = true) by (vm_compute; reflexivity).
  rewrite forallb_forall in Hall. specialize (Hall (Z.to_nat x)).
  rewrite Z2Nat.id in Hall by lia.
  apply Nat.eqb_eq, Hall, in_seq. lia.
Qed.

Lemma length_FormatTime (t : Time) :
  four_digit_time t -> length (FormatTime t) = 19.
Proof.
  intros [Hy [Hm [Hd [Hh [Hmi Hs]]]]]. unfold FormatTime.
  rewrite !length_append, (length_appendInt_4 _ Hy),
    (length_appendInt_2 _ Hm), (length_appendInt_2 _ Hd),
    (length_appendInt_2 _ Hh), (length_appendInt_2 _ Hmi),
    (length_appendInt_2 _ Hs).
  reflexivity.
Qed.

Lemma all_ascii_append (s t : string) :
  all_ascii s = true -> all_ascii t = true -> all_ascii (s ++ t) = true.
Proof.
  intros Hs Ht. induction s as [|a s IH]; [exact Ht|].
  cbn [all_ascii append] in *. apply andb_true_iff in Hs as [Ha Hs].
  now rewrite Ha, IH.
Qed.

Lemma all_ascii_after_last_slash (s : string) :
  all_ascii s = true -> all_ascii (after_last_slash s) = true.
Proof.
  induction s as [|a s IH]; [reflexivity|].
  cbn [all_ascii after_last_slash]. intros H.
  apply andb_true_iff in H as [Ha Hs].
  destruct (has_byte "/" s); [now apply IH|].
  destruct (Ascii.eqb a "/"); [assumption|].
  cbn [all_ascii]. now rewrite Ha, Hs.
Qed.

Lemma all_ascii_itoa (z : Z) : all_ascii (itoa z) = true.
Proof.
  apply (all_ascii_within _ "-0123456789"); [reflexivity | apply within_itoa].
Qed.

End ColumnFacts.

(* ================================================================== *)
(** * The color resolver                                               *)
(* ================================================================== *)

Import GoStringsFacts ParseColorFacts.

Lemma parseColor_resolved (c : string) :
  parseColor (parseColor c) = parseColor c.
Proof.
  pose proof (TrimSpace_trimmed c) as Ht.
  pose proof (parseColor_TrimSpace c) as Hv.
  unfold parseColor at 2 3. unfold parseColor at 2 in Hv.
  set (t := TrimSpace c) in *.
  destruct (t =? ""); [reflexivity|].
  destruct (ToLower t =? "red"); [reflexivity|].
  destruct (ToLower t =? "green"); [reflexivity|].
  destruct (ToLower t =? "yellow"); [reflexivity|].
  destruct (ToLower t =? "blue"); [reflexivity|].
  destruct (ToLower t =? "magenta"); [reflexivity|].
  destruct (ToLower t =? "cyan"); [reflexivity|].
  destruct (ToLower t =? "white"); [reflexivity|].
  destruct ((ToLower t =? "gray") || (ToLower t =? "grey")); [reflexivity|].
  destruct ((ToLower t =? "none") || (ToLower t =? "off")); [reflexivity|].
  destruct (Contains t (String ESC "") || Contains t escape_text) eqn:Hesc.
  - (* the escape byte, perhaps in its text form *)
    apply parseColor_escape_fixed.
    + now apply unescape_trimmed.
    + apply orb_true_iff in Hesc as [H | H].
      * rewrite Contains_byte in H. now apply (unescape_keeps_esc t 0).
      * now apply (unescape_makes_esc t 0).
    + apply (unescape_complete t 0).
  - destruct (Atoi t) as [z|] eqn:Hnum.
    + (* a number *)
      apply parseColor_escape_fixed.
      * apply (trimmed_ends ESC "m" (String "[" t)); reflexivity.
      * reflexivity.
      * apply no_backslash_no_escape_text.
        cbn [append has_byte]. rewrite has_byte_append.
        now rewrite (Atoi_no_backslash t z Hnum).
    + (* anything else stands for itself *)
      exact Hv.
Qed.

(** C9: the color resolver is idempotent: for every input string [c],
    parseColor(parseColor(c)) = parseColor(c); so each color setter
    stores for an already resolved color what it stores for the input
    the color was resolved from, the resolved color itself. *)
Theorem C9_parseColor_idempotent (c : string) :
  parseColor (parseColor c) = parseColor c /\
  forall cfg,
    SetColorTrace (parseColor c) cfg = SetColorTrace c cfg /\
    SetColorDebug (parseColor c) cfg = SetColorDebug c cfg /\
    SetColorInfo (parseColor c) cfg = SetColorInfo c cfg /\
    SetColorWarn (parseColor c) cfg = SetColorWarn c cfg /\
    SetColorError (parseColor c) cfg = SetColorError c cfg /\
    SetColorSource (parseColor c) cfg = SetColorSource c cfg /\
    colorTrace (SetColorTrace (parseColor c) cfg) = parseColor c.
Proof.
  split; [apply parseColor_resolved|].
  intros cfg.
  unfold SetColorTrace, SetColorDebug, SetColorInfo, SetColorWarn,
    SetColorError, SetColorSource.
  rewrite parseColor_resolved. repeat split; reflexivity.
Qed.

(** C6 as stated fails: [" zz"] is not empty, is no known name, is no
    integer and has no escape marker, yet the resolver does not return
    it as it is (it returns ["zz"]). *)
Lemma C6_counterexample :
  let c := " zz" in
  c <> "" /\
  is_color_word (ToLower c) = false /\
  is_color_word (ToLower (TrimSpace c)) = false /\
  Atoi c = None /\ Atoi (TrimSpace c) = None /\
  Contains c (String ESC "") = false /\ Contains c escape_text = false /\
  parseColor c <> c.
Proof. cbv zeta. repeat split; try reflexivity; discriminate. Qed.

(** C6, amended: ["red"], ["31"], the escape sequence and its text form
    all resolve to the ANSI red escape; an input that is empty after
    trimming, or is [none] or [off] after trimming and lowering,
    resolves to the empty string; any other input that after trimming is
    no known word, has no escape marker and is not accepted by Atoi
    resolves to the trimmed input.  The resolver is a total function to
    strings: no input makes it fail. *)
Theorem C6_color_resolver :
  (parseColor "red" = ansi_red /\ parseColor "31" = ansi_red /\
   parseColor (String ESC "[31m") = ansi_red /\
   parseColor "\033[31m" = ansi_red) /\
  (forall c, TrimSpace c = "" -> parseColor c = "") /\
  (forall c, ToLower (TrimSpace c) = "none" \/ ToLower (TrimSpace c) = "off" ->
             parseColor c = "") /\
  (forall c, TrimSpace c <> "" ->
             is_color_word (ToLower (TrimSpace c)) = false ->
             Contains (TrimSpace c) (String ESC "") = false ->
             Contains (TrimSpace c) escape_text = false ->
             Atoi (TrimSpace c) = None ->
             parseColor c = TrimSpace c).
Proof.
  split; [repeat split; reflexivity|]. split; [|split].
  - intros c H. unfold parseColor. now rewrite H.
  - intros c H. unfold parseColor.
    destruct (TrimSpace c =? ""); [reflexivity|].
    destruct H as [-> | ->]; reflexivity.
  - intros c Hne Hw He1 He2 Hn. unfold parseColor.
    apply String.eqb_neq in Hne. rewrite Hne.
    unfold is_color_word in Hw.
    repeat (apply orb_false_iff in Hw as [Hw ?]).
    repeat match goal with H : (_ =? _) = false |- _ => rewrite H; clear H end.
    cbn [orb]. now rewrite He1, He2, Hn.
Qed.

Lemma C6_color_resolver_witness :
  parseColor "  Off " = "" /\ parseColor " bold " = "bold".
Proof.
  destruct C6_color_resolver as [_ [_ [Hoff Hraw]]]. split.
  - apply Hoff. right. reflexivity.
  - apply (Hraw " bold "); try reflexivity. discriminate.
Defined.

(* ================================================================== *)
(** * The logging calls                                                *)
(* ================================================================== *)

Import LoggerFacts.

(** C1 as stated fails: the way Info ends does not tell its caller the
    error of the write.  With a sink that takes the line and with a sink
    that fails, Info returns alike, and it has no result. *)
Lemma C1_counterexample :
  ~ hands_write_error_to_caller (fun E => Info E [7%N] "server started" []).
Proof.
  intros [observe H].
  pose proof (H (sample_env "" false "/src/app.go" 42) initial_world) as Hok.
  pose proof (H (sample_env "" true "/src/app.go" 42) initial_world) as Hfail.
  vm_compute in Hok, Hfail.
  assert (H1 : observe (Returns tt) = None) by (apply Hok; discriminate).
  assert (H2 : observe (Returns tt) = Some (WriteError "broken pipe"))
    by (apply Hfail; discriminate).
  congruence.
Qed.

(** C1, amended: for every record whose severity passes the floor,
    Handle calls Write exactly once and returns the error of that call
    to its caller, logWithCaller; logWithCaller discards it: the logging
    call returns nothing to its caller, adding to the trace the record
    and that single call of Write with its result. *)
Theorem C1_write_once_error_returned_by_Handle :
  forall E frames lvl msg args w h,
    isInit w = true -> logger w = Some h -> (floor w h <= lvl)%Z ->
    let r := record_of E frames lvl msg w in
    let w1 := set_trace (trace w ++ [EvRecord r]) w in
    let line := line_of E h (Add r args) w in
    let err := WriteResult E (trace w1) (h_writer h) line in
    Handle E h (Add r args) w1 =
      (Returns err, set_trace (trace w1 ++ [EvWrite (h_writer h) line err]) w1) /\
    logWithCaller E frames lvl msg args w =
      (Returns tt,
       set_trace (trace w ++ [EvRecord r; EvWrite (h_writer h) line err]) w).
Proof.
  intros E frames lvl msg args w h Hi Hl Hf r w1 line err. split.
  - apply Handle_spec.
  - now apply logWithCaller_enabled.
Qed.

Lemma C1_write_once_error_returned_by_Handle_witness :
  let E := sample_env "" true "/src/app.go" 42 in
  exists r line,
    logWithCaller E [1%N; 7%N] LevelWarn "slow query" [] (sample_world E) =
    (Returns tt,
     set_trace [EvRecord r; EvWrite Stdout line (Some (WriteError "broken pipe"))]
               (sample_world E)).
Proof.
  intros E.
  destruct (C1_write_once_error_returned_by_Handle E [1%N; 7%N] LevelWarn
              "slow query" [] (sample_world E)
              (mkHandler 0 Stdout GoSlice.nil_slice []))
    as [_ H]; [reflexivity | reflexivity | vm_compute; discriminate |].
  eexists. eexists. exact H.
Defined.

(** C5: for every severity below the floor, the entry point returns
    what ensureInit left: nothing is added to the trace, neither a
    record nor a call of Write. *)
Theorem C5_below_floor_nothing_written :
  forall E ep frames msg args w h,
    logger (snd (ensureInit E w)) = Some h ->
    (entry_level ep < floor (snd (ensureInit E w)) h)%Z ->
    call_entry ep E frames msg args w = (Returns tt, snd (ensureInit E w)) /\
    trace (snd (call_entry ep E frames msg args w)) = trace w.
Proof.
  intros E ep frames msg args w h Hl Hf.
  destruct (ensureInit_returns E w) as [Hr Ht].
  assert (H : forall fr, logWithCaller E fr (entry_level ep) msg args w =
                         (Returns tt, snd (ensureInit E w))).
  { intros fr. unfold logWithCaller. cbv [bind].
    destruct (ensureInit E w) as [o w1]. cbn [fst snd] in *. subst o.
    cbv [the_logger bind gets ret Enabled]. rewrite Hl. cbv beta iota.
    unfold floor in Hf. apply Z.leb_gt in Hf. now rewrite Hf. }
  assert (Hc : call_entry ep E frames msg args w =
               (Returns tt, snd (ensureInit E w))).
  { destruct ep; apply H. }
  split; [exact Hc | now rewrite Hc].
Qed.

Lemma C5_below_floor_nothing_written_witness :
  let E := sample_env "WARN" false "/src/app.go" 42 in
  trace (snd (call_entry EpInfo E [7%N] "server started"
                [any_string "port"; any_int 8080] initial_world)) = [].
Proof.
  intros E.
  apply (C5_below_floor_nothing_written E EpInfo [7%N] "server started"
           [any_string "port"; any_int 8080] initial_world
           (mkHandler 0 Stdout GoSlice.nil_slice []));
    [reflexivity | vm_compute; reflexivity].
Defined.

(** C10: when no panic is in flight, Recover returns and leaves the
    whole state as it is, the trace included; deferred around a body
    that returns, it adds nothing to what the body did. *)
Theorem C10_Recover_without_panic :
  forall E frames w,
    panicking w = None ->
    Recover E frames w = (Returns tt, w) /\
    forall (A : Type) (body : M A) (a : A) (w0 : World),
      body w0 = (Returns a, w) ->
      deferred (Recover E frames) body w0 = (Returns (Some a), w).
Proof.
  intros E frames w Hp.
  assert (H : Recover E frames w = (Returns tt, w)).
  { destruct w; cbn in Hp; subst. reflexivity. }
  split; [exact H|].
  intros A body a w0 Hb. unfold deferred. now rewrite Hb, H.
Qed.

Lemma C10_Recover_without_panic_witness :
  let E := sample_env "" false "/src/app.go" 42 in
  Recover E [7%N] (sample_world E) = (Returns tt, sample_world E).
Proof.
  intros E. apply (C10_Recover_without_panic E [7%N] (sample_world E)).
  reflexivity.
Defined.

(** C3 as stated fails: SetLevel before the first Init or logging call
    changes nothing.  After SetLevel("ERROR") in a process that has just
    started, with LOG_LEVEL not set, a call of Warn still writes its
    line, although WARN is below ERROR. *)
Lemma C3_counterexample :
  let E := sample_env "" false "/src/app.go" 42 in
  (LevelWarn < parseLevel "ERROR")%Z /\
  SetLevel "ERROR" initial_world = (Returns tt, initial_world) /\
  writes (trace (snd ((SetLevel "ERROR" ;;; Warn E [7%N] "slow query" [])
                        initial_world))) <> [].
Proof.
  intros E. split; [reflexivity|]. split; [reflexivity|].
  vm_compute. discriminate.
Qed.

(** C3, amended: before the logger is initialized SetLevel is a no-op,
    and the floor is then taken from LOG_LEVEL by Init.  Once the logger
    is initialized, SetLevel(s) returns, replaces the floor with the
    value parsed from [s] and changes nothing else; every later logging
    call below that value leaves the state as it is, and every later
    call at or above it builds its record and writes its line. *)
Theorem C3_SetLevel_replaces_floor_once_initialized :
  forall E s w,
    match level w with
    | None =>
        SetLevel s w = (Returns tt, w) /\
        (initOnce w = false ->
         exists h, logger (snd (Init E w)) = Some h /\
                   floor (snd (Init E w)) h = parseLevel (Getenv E "LOG_LEVEL"))
    | Some a =>
        forall h,
          isInit w = true -> logger w = Some h -> h_level h = a ->
          (a < List.length (levelVars w))%nat ->
          exists w',
            SetLevel s w = (Returns tt, w') /\
            floor w' h = parseLevel s /\
            w' = set_levelVars (levelVars w') w /\
            forall frames lvl msg args,
              ((lvl < parseLevel s)%Z ->
               logWithCaller E frames lvl msg args w' = (Returns tt, w')) /\
              ((parseLevel s <= lvl)%Z ->
               exists r line err,
                 logWithCaller E frames lvl msg args w' =
                 (Returns tt,
                  set_trace (trace w' ++ [EvRecord r; EvWrite (h_writer h) line err])
                            w'))
    end.
Proof.
  intros E s w. destruct (level w) as [a|] eqn:Hlv.
  - intros h Hi Hl Ha Hlen.
    exists (set_levelVars (store_level (levelVars w) a (parseLevel s)) w).
    assert (Hfl : floor (set_levelVars
                           (store_level (levelVars w) a (parseLevel s)) w) h
                  = parseLevel s).
    { unfold floor, LevelVar_Level. rewrite Ha. cbn [levelVars set_levelVars].
      now apply store_level_nth. }
    split; [|split; [exact Hfl | split; [reflexivity|]]].
    + unfold SetLevel. cbv [bind gets]. rewrite Hlv. reflexivity.
    + intros frames lvl msg args. split; intros Hlt.
      * apply (logWithCaller_disabled _ _ _ _ _ _ h); [exact Hi | exact Hl|].
        now rewrite Hfl.
      * eexists. eexists. eexists.
        apply (logWithCaller_enabled _ _ _ _ _ _ h); [exact Hi | exact Hl|].
        now rewrite Hfl.
  - split.
    + unfold SetLevel. cbv [bind gets]. rewrite Hlv. reflexivity.
    + intros Ho. destruct (Init_first E w Ho) as [_ [_ [Hl [_ [Hf _]]]]].
      eexists. split; [exact Hl | exact Hf].
Qed.

Lemma C3_SetLevel_replaces_floor_once_initialized_witness :
  let E := sample_env "" false "/src/app.go" 42 in
  exists w',
    SetLevel "error" (sample_world E) = (Returns tt, w') /\
    logWithCaller E [1%N; 7%N] LevelWarn "slow query" [] w' = (Returns tt, w').
Proof.
  intros E.
  destruct (C3_SetLevel_replaces_floor_once_initialized E "error" (sample_world E)
              (mkHandler 0 Stdout GoSlice.nil_slice []))
    as [w' [Hs [_ [_ Hlog]]]];
    [reflexivity | reflexivity | reflexivity | vm_compute; lia |].
  exists w'. split; [exact Hs|].
  apply (Hlog [1%N; 7%N] LevelWarn "slow query" []). vm_compute. reflexivity.
Defined.

(** C4 as stated fails: with width 10 the bracket holds [app.go:42] and
    one space, ten bytes in all, not the two spaces of the claimed line. *)
Lemma C4_counterexample :
  let E := sample_env "INFO" false "/src/app.go" 42 in
  let w := set_config (DisableColors (SetSourceWidth 10 (config (sample_world E))))
                      (sample_world E) in
  floor w (mkHandler 0 Stdout GoSlice.nil_slice []) = LevelInfo /\
  writes (trace (snd (Info E [7%N] "server started"
                        [any_string "port"; any_int 8080] w))) <>
  [(Stdout, "[" ++ FormatTime sample_time ++
            "] INFO  [app.go:42  ] server started port=8080" ++ newline)].
Proof. intros E w. split; [reflexivity|]. vm_compute. discriminate. Qed.

(** C4, amended: with floor INFO, source width 10 and colors disabled,
    Info("server started", "port", 8080) from a call site in app.go at
    line 42 writes exactly
    [[<timestamp>] INFO  [app.go:42 ] server started port=8080] and one
    newline: the five bytes of the level token, one joining space, and
    between the brackets the location padded with one space to ten
    bytes. *)
Theorem C4_end_to_end_line :
  forall E w h pc rest dir,
    isInit w = true -> logger w = Some h ->
    h_writer h = Stdout -> bound_attrs w h = [] ->
    floor w h = LevelInfo ->
    sourceWidth (config w) = 10%Z -> colorsDisabled (config w) = true ->
    pc <> 0%N -> FrameOf E pc = mkFrame (dir ++ "app.go") 42 ->
    (dir = "" \/ exists d, dir = d ++ "/") ->
    exists r err,
      Info E (pc :: rest) "server started" [any_string "port"; any_int 8080] w =
      (Returns tt,
       set_trace
         (trace w ++
          [EvRecord r;
           EvWrite Stdout
             ("[" ++ FormatTime (Now E (trace w)) ++
              "] INFO  [app.go:42 ] server started port=8080" ++ newline)
             err]) w).
Proof.
  intros E w h pc rest dir Hi Hl Hw Hb Hf Hsw Hcd Hpc Hfr Hdir.
  unfold Info. eexists. eexists.
  rewrite (logWithCaller_enabled _ _ _ _ _ _ h Hi Hl) by (rewrite Hf; discriminate).
  rewrite Hw. do 4 f_equal.
  unfold line_of, format_line. rewrite Hb.
  cbn [record_of Add RTime RLevel Message PC RAttrs Callers nth].
  apply N.eqb_neq in Hpc. rewrite Hpc, Hfr.
  unfold formatLevelWithColor. rewrite Hcd.
  unfold format_source. rewrite Hcd, Hsw. cbn [File Line].
  assert (Hne : (dir ++ "app.go" =? "") = false).
  { apply String.eqb_neq. destruct dir; discriminate. }
  assert (Hbase : after_last_slash (dir ++ "app.go") = "app.go").
  { destruct Hdir as [-> | [d ->]]; [reflexivity|].
    rewrite append_assoc. now apply after_last_slash_dir. }
  rewrite Hne, Hbase. rewrite !append_assoc. reflexivity.
Qed.

Lemma C4_end_to_end_line_witness :
  let E := sample_env "INFO" false "/src/app.go" 42 in
  let w := set_config (DisableColors (SetSourceWidth 10 (config (sample_world E))))
                      (sample_world E) in
  writes (trace (snd (Info E [7%N] "server started"
                        [any_string "port"; any_int 8080] w))) =
  [(Stdout, "[2025/12/27 09:20:18] INFO  [app.go:42 ] server started port=8080"
            ++ newline)].
Proof.
  intros E w.
  destruct (C4_end_to_end_line E w (mkHandler 0 Stdout GoSlice.nil_slice [])
              7%N [] "/src/")
    as [r [err H]];
    [reflexivity | reflexivity | reflexivity | reflexivity | reflexivity
    | reflexivity | reflexivity | discriminate | reflexivity
    | right; now exists "/src" |].
  rewrite H. reflexivity.
Defined.

(** C7 as stated fails: the name of the source file is printed too.
    With colors disabled and non-empty level and source colors, a record
    whose message and attributes have no escape byte, logged from a file
    whose name has one, gives a line with an escape byte. *)
Lemma C7_counterexample :
  let E := sample_env "" false (String "a" (String ESC ".go")) 1 in
  let w := set_config (DisableColors (config (sample_world E))) (sample_world E) in
  let h := mkHandler 0 Stdout GoSlice.nil_slice [] in
  let r := mkRecord sample_time LevelWarn "slow query" 7
                    [mkAttr "duration" (StringValue "500ms")] in
  logger w = Some h /\
  colorsDisabled (config w) = true /\
  colorWarn (config w) <> "" /\ colorSource (config w) <> "" /\
  no_esc (Message r) /\ Forall attr_no_esc (RAttrs r) /\
  Forall attr_no_esc (bound_attrs w h) /\
  has_byte ESC (line_of E h r w) = true /\
  writes (trace (snd (Handle E h r w))) = [(Stdout, line_of E h r w)].
Proof.
  intros E w h r.
  repeat match goal with |- _ /\ _ => split end;
    try reflexivity; try discriminate.
  - repeat constructor.
  - constructor.
Qed.

(** C7, amended: when colors are disabled, the line Handle writes has
    no escape byte, whatever the level and source colors are, for every
    record whose message, attribute texts and source file name have
    none (the attributes bound to the handler included). *)
Theorem C7_no_escape_bytes_when_disabled :
  forall E h r w,
    colorsDisabled (config w) = true ->
    no_esc (Message r) ->
    Forall attr_no_esc (RAttrs r) ->
    Forall attr_no_esc (bound_attrs w h) ->
    no_esc (File (FrameOf E (PC r))) ->
    exists line err,
      Handle E h r w =
      (Returns err, set_trace (trace w ++ [EvWrite (h_writer h) line err]) w) /\
      has_byte ESC line = false.
Proof.
  intros E h r w Hcd Hm Ha Hb Hf.
  eexists. eexists. split; [apply Handle_spec|].
  unfold line_of, format_line.
  destruct (formatLevelWithColor_disabled (config w) (RLevel r) Hcd) as [Hc Hn].
  destruct (formatLevelWithColor (config w) (RLevel r)) as [levelStr levelColor].
  cbn [fst snd] in Hc, Hn. subst levelColor. rewrite Hcd. cbn [negb andb].
  apply no_esc_append; [reflexivity|].
  apply no_esc_append; [apply no_esc_FormatTime|].
  apply no_esc_append; [reflexivity|].
  apply no_esc_append; [assumption|].
  apply no_esc_append; [reflexivity|].
  apply no_esc_append.
  { destruct (PC r =? 0)%N; [reflexivity | now apply format_source_disabled]. }
  apply no_esc_append; [reflexivity|].
  apply no_esc_append; [|reflexivity].
  apply no_esc_append; [assumption|].
  apply no_esc_append; now apply no_esc_format_attrs.
Qed.

Lemma C7_no_escape_bytes_when_disabled_witness :
  let E := sample_env "" false "/src/service.go" 42 in
  let w := set_config (DisableColors (config (sample_world E))) (sample_world E) in
  let h := mkHandler 0 Stdout GoSlice.nil_slice [] in
  let r := mkRecord sample_time LevelWarn "slow query" 7
                    [mkAttr "duration" (StringValue "500ms")] in
  exists line err,
    Handle E h r w = (Returns err, set_trace (trace w ++ [EvWrite Stdout line err]) w) /\
    has_byte ESC line = false.
Proof.
  intros E w h r.
  apply (C7_no_escape_bytes_when_disabled E h r w);
    try reflexivity; repeat constructor.
Defined.

(* ================================================================== *)
(** * The two defects                                                  *)
(* ================================================================== *)

(** C8, the run that breaks it: the call-site string [é.go:1] has six
    characters.  With width 6 it is not longer than the width, yet
    Handle cuts it after six bytes: the bracket holds [é.go:], five
    characters, and the line number is lost.  With width 20 the padding
    is counted in characters and the bracket holds 21 bytes. *)
Theorem C8_width_counts_bytes_then_runes :
  RuneCountInString accented_site = 6 /\ length accented_site = 7 /\
  fit_source 6 accented_site = e_acute ++ ".go:" /\
  RuneCountInString (fit_source 6 accented_site) = 5 /\
  format_source (DisableColors (SetSourceWidth 6 initial_config))
                (mkFrame ("/src/" ++ e_acute ++ ".go") 1)
    = "[" ++ e_acute ++ ".go:]" /\
  length (fit_source 20 accented_site) = 21.
Proof. repeat split; reflexivity. Qed.

(** C2, the run that breaks it: the handler of the global logger,
    derived three times by one attribute, has a backing array of
    capacity 4 holding 3 attributes.  Its first derivation [h1] writes
    [x] into the free cell and is bound to [a, b, c, x].  The second
    derivation [h2] writes [y] into the same cell: from then on [h1] is
    bound to [a, b, c, y], and that is what Handle prints for it.  The
    parent keeps [a, b, c]. *)
Theorem C2_sibling_derivation_overwrites :
  let E := sample_env "" false "/src/app.go" 42 in
  exists h h1 h2 w,
    sibling_run E initial_world
    = (Returns (h, h1, h2,
                [attr_s "a" "1"; attr_s "b" "2"; attr_s "c" "3"; attr_s "x" "one"]),
       w) /\
    GoSlice.len (h_attrs h) = 3 /\ GoSlice.cap (h_attrs h) = 4 /\
    bound_attrs w h = [attr_s "a" "1"; attr_s "b" "2"; attr_s "c" "3"] /\
    bound_attrs w h2
    = [attr_s "a" "1"; attr_s "b" "2"; attr_s "c" "3"; attr_s "y" "two"] /\
    bound_attrs w h1
    = [attr_s "a" "1"; attr_s "b" "2"; attr_s "c" "3"; attr_s "y" "two"] /\
    GoSlice.ptr (h_attrs h1) = GoSlice.ptr (h_attrs h2) /\
    writes (trace (snd (Handle E h1 (mkRecord sample_time LevelInfo "hello" 0 []) w)))
    = [(Stdout, "[2025/12/27 09:20:18] INFO   hello a=1 b=2 c=3 y=two" ++ newline)].
Proof.
  intros E. do 4 eexists.
  split; [vm_compute; reflexivity|].
  repeat split; reflexivity.
Qed.

(* ================================================================== *)
(** * Further properties: the global logger                            *)
(* ================================================================== *)

Import StateFacts.

(** X1: from a state the package keeps (the state of a fresh process is
    one), every program of Init, SetLevel, leveled logging calls,
    Recover and the configuration setters returns: no call panics on a
    nil logger or exits.  The state stays of that kind: the source width
    positive, the floor between TRACE and ERROR, the logger the handler
    Init made. *)
Theorem X1_programs_return_and_keep_state :
  forall E cs w,
    world_ok w ->
    fst (run_calls E cs w) = Returns tt /\ world_ok (snd (run_calls E cs w)).
Proof.
  intros E cs. induction cs as [|c cs IH]; intros w Hok.
  - split; [reflexivity | exact Hok].
  - cbn [run_calls]. unfold bind.
    destruct (run_call_ok E c w Hok) as [Hr Hk].
    destruct (run_call E c w) as [o w']. cbn [fst snd] in Hr, Hk. subst o.
    now apply IH.
Qed.

Lemma X1_programs_return_and_keep_state_witness :
  let E := sample_env "debug" false "/src/app.go" 42 in
  let prog := [CallSetSourceWidth (-3); CallSetLevel "ERROR";
               CallInfo [7%N] "server started" [any_string "port"; any_int 8080];
               CallSetLevel "nonsense"; CallSetColorInfo "green";
               CallRecover []; CallInit; CallWarn [7%N] "slow query" []] in
  fst (run_calls E prog initial_world) = Returns tt /\
  world_ok (snd (run_calls E prog initial_world)).
Proof.
  intros E prog. apply (X1_programs_return_and_keep_state E prog initial_world).
  unfold world_ok. cbn. repeat split; reflexivity.
Defined.

(** X2: in such a state Fatal never returns: it writes the one line of
    a FATAL record with the message, attributed to its caller, and then
    the process exits with status 1, whatever the floor is and whether
    or not the write failed. *)
Theorem X2_Fatal_writes_then_exits :
  forall E frames msg args w,
    world_ok w ->
    let w1 := snd (ensureInit E w) in
    exists r line err,
      Fatal E frames msg args w =
      (Exits 1, set_trace (trace w ++ [EvRecord r; EvWrite Stdout line err]) w1) /\
      RLevel r = LevelFatal /\ Message r = msg /\ PC r = nth 0 frames 0%N /\
      err = WriteResult E (trace w ++ [EvRecord r]) Stdout line.
Proof.
  intros E frames msg args w Hok w1.
  destruct (logWithCaller_ok E (pc_in E "Fatal" :: frames) LevelFatal msg args
              w Hok) as [h [_ [_ [_ [Hf H]]]]].
  destruct (ensureInit_ok E w Hok) as [_ [_ [_ [Ht _]]]].
  fold w1 in Hf, H, Ht.
  assert (Hen : (floor w1 h <=? LevelFatal)%Z = true).
  { apply Z.leb_le. unfold LevelFatal, LevelError in *. lia. }
  rewrite Hen in H. rewrite Ht in H.
  do 3 eexists. split.
  - unfold Fatal, bind. rewrite H. reflexivity.
  - repeat split; reflexivity.
Qed.

Lemma X2_Fatal_writes_then_exits_witness :
  let E := sample_env "ERROR" true "/src/app.go" 42 in
  exists r line,
    Fatal E [7%N] "cannot start" [] initial_world =
    (Exits 1,
     set_trace [EvRecord r; EvWrite Stdout line (Some (WriteError "broken pipe"))]
               (sample_world E)).
Proof.
  intros E.
  destruct (X2_Fatal_writes_then_exits E [7%N] "cannot start" [] initial_world)
    as [r [line [err [H [_ [_ [_ He]]]]]]].
  - unfold world_ok. cbn. repeat split; reflexivity.
  - exists r, line. rewrite H. cbn in He. now rewrite He.
Defined.

Import PanicFacts.

(** X3: in such a state PanicLog writes the one line of a PANIC record
    with the message, attributed to its caller, and then panics with the
    message as the panic value, whether or not the write failed. *)
Theorem X3_PanicLog_writes_then_panics :
  forall E frames msg args w,
    world_ok w ->
    let w1 := snd (ensureInit E w) in
    exists r line err,
      PanicLog E frames msg args w =
      (Panics (any_string msg),
       set_trace (trace w ++ [EvRecord r; EvWrite Stdout line err]) w1) /\
      RLevel r = LevelPanic /\ Message r = msg /\ PC r = nth 0 frames 0%N.
Proof.
  intros E frames msg args w Hok w1.
  destruct (PanicLog_run E frames msg args w Hok) as [h [_ H]].
  fold w1 in H. do 3 eexists. split; [exact H|].
  split; [reflexivity|]. split; [reflexivity|].
  unfold record_of. reflexivity.
Qed.

Lemma X3_PanicLog_writes_then_panics_witness :
  let E := sample_env "ERROR" false "/src/app.go" 42 in
  exists w', PanicLog E [7%N] "lost state" [] initial_world
             = (Panics (any_string "lost state"), w').
Proof.
  intros E.
  destruct (X3_PanicLog_writes_then_panics E [7%N] "lost state" [] initial_world)
    as [r [line [err [H _]]]].
  - unfold world_ok. cbn. repeat split; reflexivity.
  - eexists. exact H.
Defined.



(** X5: a body that ends in PanicLog, run under a deferred Recover,
    returns to its caller (without a result): the panic does not go on.
    Two PANIC records are written then, the one of PanicLog and the one
    of Recover. *)
Theorem X5_deferred_Recover_swallows_PanicLog :
  forall E frames frames' msg args w,
    world_ok w ->
    exists r1 line1 err1 r2 line2 err2 w',
      deferred (Recover E frames') (PanicLog E frames msg args) w =
      (Returns None, w') /\
      panicking w' = None /\
      trace w' = (trace w ++ [EvRecord r1; EvWrite Stdout line1 err1;
                              EvRecord r2; EvWrite Stdout line2 err2])%list /\
      RLevel r1 = LevelPanic /\ Message r1 = msg /\
      RLevel r2 = LevelPanic /\
      Message r2 = "recovered: " ++ msg.
Proof.
  intros E frames frames' msg args w Hok.
  destruct (PanicLog_run E frames msg args w Hok) as [h1 [_ H1]].
  destruct (ensureInit_ok E w Hok) as [_ [Hok1 _]].
  set (w1 := snd (ensureInit E w)) in *.
  set (r1 := record_of E (pc_in E "PanicLog" :: frames) LevelPanic msg w1) in *.
  set (w2 := set_trace _ w1) in H1.
  assert (Hok2 : world_ok w2) by (apply world_ok_set_trace; exact Hok1).
  destruct (Recover_panicking E frames' (any_string msg) w2 Hok2)
    as [h2 [_ [_ [_ H2]]]].
  destruct (ensureInit_ok E w2 Hok2) as [_ [[_ [Hp2 _]] [_ [Ht2 _]]]].
  do 6 eexists. eexists.
  unfold deferred. rewrite H1, H2.
  cbn [panicking set_trace]. rewrite Hp2.
  cbn [trace set_trace]. rewrite Ht2.
  split; [reflexivity|].
  split; [cbn [panicking set_trace]; exact Hp2|].
  split; [unfold w2; cbn [trace set_trace]; now rewrite <- app_assoc|].
  repeat split; reflexivity.
Qed.

Lemma X5_deferred_Recover_swallows_PanicLog_witness :
  let E := sample_env "" false "/src/app.go" 42 in
  fst (deferred (Recover E [9%N]) (PanicLog E [7%N] "lost state" [])
                initial_world) = Returns None.
Proof.
  intros E.
  destruct (X5_deferred_Recover_swallows_PanicLog E [7%N] [9%N] "lost state" []
              initial_world)
    as [r1 [l1 [e1 [r2 [l2 [e2 [w' [H _]]]]]]]].
  - unfold world_ok. cbn. repeat split; reflexivity.
  - now rewrite H.
Defined.

Import ConfigFacts.

(** X6: Init takes effect once: a second Init, even with another
    environment, changes nothing.  And Init is implied: in a state the
    package keeps, a leveled logging call does what Init followed by
    that call does. *)
Theorem X6_Init_once_and_implied :
  forall E E' w,
    Init E' (snd (Init E w)) = (Returns tt, snd (Init E w)) /\
    (world_ok w ->
     forall ep frames msg args,
       call_entry ep E frames msg args w =
       (Init E ;;; call_entry ep E frames msg args) w).
Proof.
  intros E E' w. split.
  - apply Init_done. destruct (initOnce w) eqn:Hi.
    + now rewrite (Init_done E w Hi).
    + now rewrite (Init_run E w Hi).
  - intros Hok ep frames msg args.
    assert (H : forall fr lvl,
               logWithCaller E fr lvl msg args w =
               (Init E ;;; logWithCaller E fr lvl msg args) w).
    { intros fr lvl. destruct (Init_ok E w Hok) as [Hr [Hok' [Hi' [_ Hsame]]]].
      unfold bind at 1. destruct (Init E w) as [o w'] eqn:HI.
      cbn [fst snd] in *. subst o.
      rewrite (logWithCaller_after_ensureInit E fr lvl msg args w Hok).
      rewrite (logWithCaller_after_ensureInit E fr lvl msg args w' Hok').
      rewrite (LoggerFacts.ensureInit_initialized E w' Hi'). cbn [snd].
      f_equal. unfold ensureInit, bind, gets, ret.
      destruct (isInit w) eqn:Hi; cbn [negb snd].
      - symmetry. now apply Hsame.
      - now rewrite HI. }
    destruct ep; apply H.
Qed.

Lemma X6_Init_once_and_implied_witness :
  let E := sample_env "WARN" false "/src/app.go" 42 in
  call_entry EpError E [7%N] "database error" [] initial_world =
  (Init E ;;; call_entry EpError E [7%N] "database error" []) initial_world.
Proof.
  intros E.
  destruct (X6_Init_once_and_implied E E initial_world) as [_ H].
  apply H. unfold world_ok. cbn. repeat split; reflexivity.
Defined.

(** X7: the environment is read once: initConfig on a configuration
    that initConfig has produced changes nothing, whatever the
    environment now says.  With no variable set, the first initConfig
    only marks the configuration as loaded, and a LOG_SOURCE_WIDTH that
    is not a number, or not a positive one, leaves the width as it is. *)
Theorem X7_initConfig_reads_once :
  forall getenv c,
    (forall getenv', initConfig getenv' (initConfig getenv c) = initConfig getenv c) /\
    (configLoaded c = false -> (forall name, getenv name = "") ->
     initConfig getenv c = with_configLoaded true c) /\
    (Atoi (getenv "LOG_SOURCE_WIDTH") = None \/
     (exists z, Atoi (getenv "LOG_SOURCE_WIDTH") = Some z /\ (z <= 0)%Z) ->
     sourceWidth (initConfig getenv c) = sourceWidth c).
Proof.
  intros getenv c. split; [|split].
  - intros getenv'. unfold initConfig at 1.
    now rewrite initConfig_loaded.
  - intros Hl Hg. unfold initConfig. rewrite Hl, !Hg. reflexivity.
  - intros Hw. unfold initConfig. destruct (configLoaded c); [reflexivity|].
    destruct Hw as [Ha | [z [Ha Hz]]]; rewrite Ha;
      [|apply Z.ltb_ge in Hz; rewrite Hz];
      repeat match goal with
             | |- context [if ?b then _ else _] => destruct b
             end; reflexivity.
Qed.

Lemma X7_initConfig_reads_once_witness :
  let getenv := fun name => if name =? "LOG_SOURCE_WIDTH" then "wide" else "" in
  sourceWidth (initConfig getenv (SetSourceWidth 30 initial_config)) = 30%Z.
Proof.
  intros getenv.
  destruct (X7_initConfig_reads_once getenv (SetSourceWidth 30 initial_config))
    as [_ [_ H]].
  rewrite H; [reflexivity | left; reflexivity].
Defined.

(* ================================================================== *)
(** * Further properties: the compatibility functions                  *)
(* ================================================================== *)

(** X8: the functions of the log package log what the structured entry
    points log for the formatted message without attributes, at the
    location of their own caller: Print, Println and Printf do what Info
    does, Fatalln and Fatalf what Fatal does, Panic, Panicln and Panicf
    what PanicLog does.  (Println formats with Sprint, as Print does.) *)
Theorem X8_compat_functions_are_entry_points :
  forall (Sprint : list any -> string) (Sprintf : string -> list any -> string)
         E frames format v w,
    Print Sprint E frames v w = Info E frames (Sprint v) [] w /\
    Println Sprint E frames v w = Info E frames (Sprint v) [] w /\
    Printf Sprintf E frames format v w = Info E frames (Sprintf format v) [] w /\
    Fatalln Sprint E frames v w = Fatal E frames (Sprint v) [] w /\
    Fatalf Sprintf E frames format v w = Fatal E frames (Sprintf format v) [] w /\
    Panic Sprint E frames v w = PanicLog E frames (Sprint v) [] w /\
    Panicln Sprint E frames v w = PanicLog E frames (Sprint v) [] w /\
    Panicf Sprintf E frames format v w = PanicLog E frames (Sprintf format v) [] w.
Proof.
  intros Sprint Sprintf E frames format v w.
  assert (H : forall here there lvl msg w0,
             logCompatWithCaller E (here :: frames) lvl msg w0 =
             logWithCaller E (there :: frames) lvl msg [] w0).
  { intros here there lvl msg w0.
    unfold logCompatWithCaller, logWithCaller. cbv [bind].
    destruct (ensureInit E w0) as [[u| |] w1]; reflexivity. }
  unfold Print, Println, Printf, Fatalln, Fatalf, Panic, Panicln, Panicf,
    Info, Fatal, PanicLog.
  repeat split; try apply H; unfold bind; now rewrite (H _ (pc_in E _)).
Qed.

(* ================================================================== *)
(** * Further properties: the entry points and the floor               *)
(* ================================================================== *)

(** X9: in a state the package keeps, a leveled entry point whose level
    is at or above the floor adds exactly one record and one write to
    the standard output: the record has the level of the entry point,
    the message, the time of the call and the PC of the caller of the
    entry point (0 when there is none); the line is the record with the
    attributes made of the arguments, formatted without bound
    attributes. *)
Theorem X9_entry_point_logs_for_its_caller :
  forall E ep frames msg args w,
    world_ok w ->
    let w1 := snd (ensureInit E w) in
    exists h,
      logger w1 = Some h /\
      ((floor w1 h <= entry_level ep)%Z ->
       exists r line err,
         call_entry ep E frames msg args w =
         (Returns tt,
          set_trace (trace w ++ [EvRecord r; EvWrite Stdout line err]) w1) /\
         r = mkRecord (Now E (trace w)) (entry_level ep) msg (nth 0 frames 0%N) [] /\
         line = format_line E (config w1) [] (Add r args)).
Proof.
  intros E ep frames msg args w Hok w1.
  assert (H : forall here,
             exists h,
               logger w1 = Some h /\
               ((floor w1 h <= entry_level ep)%Z ->
                exists r line err,
                  logWithCaller E (here :: frames) (entry_level ep) msg args w =
                  (Returns tt,
                   set_trace (trace w ++ [EvRecord r; EvWrite Stdout line err]) w1) /\
                  r = mkRecord (Now E (trace w)) (entry_level ep) msg
                               (nth 0 frames 0%N) [] /\
                  line = format_line E (config w1) [] (Add r args))).
  { intros here.
    destruct (logWithCaller_ok E (here :: frames) (entry_level ep) msg args w Hok)
      as [h [Hl [_ [Hb [_ Hrun]]]]].
    destruct (ensureInit_ok E w Hok) as [_ [_ [_ [Ht _]]]].
    fold w1 in Hl, Hb, Hrun, Ht.
    exists h. split; [exact Hl|]. intros Hen. apply Z.leb_le in Hen.
    rewrite Hen in Hrun. do 3 eexists. split; [|split].
    - rewrite Hrun. rewrite Ht. reflexivity.
    - unfold record_of. rewrite Ht. reflexivity.
    - unfold line_of. rewrite Hb. unfold record_of. now rewrite Ht. }
  destruct ep; apply H.
Qed.

Lemma X9_entry_point_logs_for_its_caller_witness :
  let E := sample_env "TRACE" false "/src/app.go" 42 in
  writes (trace (snd (call_entry EpTrace E [7%N] "trace message"
                        [any_string "key"; any_string "value"] initial_world))) =
  [(Stdout,
    "[2025/12/27 09:20:18] " ++ String ESC "[90mTRACE" ++ String ESC "[0m " ++
    String ESC "[32m[app.go:42           ]" ++ String ESC "[0m " ++
    String ESC "[90mtrace message key=value" ++ String ESC "[0m" ++ newline)].
Proof.
  intros E.
  destruct (X9_entry_point_logs_for_its_caller E EpTrace [7%N] "trace message"
              [any_string "key"; any_string "value"] initial_world)
    as [h [Hl H]].
  - unfold world_ok. cbn. repeat split; reflexivity.
  - destruct H as [r [line [err [H [-> ->]]]]].
    + injection Hl as <-. vm_compute. discriminate.
    + rewrite H. reflexivity.
Defined.

(** X10: of two calls of SetLevel the last one decides: the state after
    SetLevel(l1) and SetLevel(l2) is the state after SetLevel(l2). *)
Theorem X10_SetLevel_last_call_decides :
  forall l1 l2 w,
    (SetLevel l1 ;;; SetLevel l2) w = SetLevel l2 w.
Proof.
  intros l1 l2 w. unfold SetLevel, bind, gets, ret, LevelVar_Set, modify.
  destruct (level w) as [a|] eqn:Hl; cbn [level set_levelVars].
  - rewrite Hl. unfold set_levelVars. cbn.
    now rewrite store_level_twice.
  - now rewrite Hl.
Qed.

(** X11: the groups of a handler do not show: WithGroup leaves the state
    as it is, and the handler it returns writes for every record the
    line the handler it was made from writes, to the same writer. *)
Theorem X11_WithGroup_does_not_show :
  forall E h name r w,
    exists h',
      WithGroup h name w = (Returns h', w) /\
      h_groups h' = (h_groups h ++ [name])%list /\
      Handle E h' r w = Handle E h r w /\
      forall l, Enabled h' l w = Enabled h l w.
Proof.
  intros E h name r w. eexists. split; [reflexivity|].
  repeat split; reflexivity.
Qed.

(* ================================================================== *)
(** * Further properties: derived handlers and the line                *)
(* ================================================================== *)

Import DeriveFacts LineFacts.

(** X12: WithAttrs on a handler whose attribute slice fits the heap
    returns a handler with the level, the writer and the groups of its
    parent, bound to the attributes of the parent followed by the new
    ones; the parent is bound to what it was bound to; only the backing
    arrays of the state change, and the slices of both handlers, and of
    every other handler, still fit the heap. *)
Theorem X12_WithAttrs_extends_the_parent :
  forall h attrs w,
    GoSlice.slice_ok (arrays w) (h_attrs h) ->
    exists h' w',
      WithAttrs h attrs w = (Returns h', w') /\
      bound_attrs w' h' = (bound_attrs w h ++ attrs)%list /\
      bound_attrs w' h = bound_attrs w h /\
      h_level h' = h_level h /\ h_writer h' = h_writer h /\
      h_groups h' = h_groups h /\
      w' = set_arrays (arrays w') w /\
      GoSlice.slice_ok (arrays w') (h_attrs h') /\
      forall h0, GoSlice.slice_ok (arrays w) (h_attrs h0) ->
                 GoSlice.slice_ok (arrays w') (h_attrs h0).
Proof.
  intros h attrs w Hok.
  pose proof (GoSliceFacts.append_elems zeroAttr (arrays w) (h_attrs h) attrs Hok)
    as [H1 H2].
  pose proof (append_slice_ok zeroAttr (arrays w) (h_attrs h) attrs Hok)
    as [H3 H4].
  unfold WithAttrs, bound_attrs.
  destruct (GoSlice.append zeroAttr (arrays w) (h_attrs h) attrs) as [s hp].
  cbn [fst snd] in *. do 2 eexists. split; [reflexivity|].
  cbn [h_attrs h_level h_writer h_groups arrays set_arrays].
  split; [exact H1|]. split; [exact H2|].
  split; [reflexivity|]. split; [reflexivity|]. split; [reflexivity|].
  split; [reflexivity|]. split; [exact H3|].
  intros h0. apply H4.
Qed.

Lemma X12_WithAttrs_extends_the_parent_witness :
  exists h' w',
    WithAttrs (mkHandler 0 Stdout GoSlice.nil_slice []) [attr_s "service" "api"]
              initial_world = (Returns h', w') /\
    bound_attrs w' h' = [attr_s "service" "api"].
Proof.
  destruct (X12_WithAttrs_extends_the_parent
              (mkHandler 0 Stdout GoSlice.nil_slice []) [attr_s "service" "api"]
              initial_world) as [h' [w' [H [Hb _]]]].
  - split; [apply Nat.le_refl | now left].
  - exists h', w'. split; [exact H | exact Hb].
Defined.

(** X13: the attributes come in the order record, handler, derivation:
    the line of a derived handler is the line of its parent with the
    texts of the new attributes put in behind the attributes of the
    parent, which follow the attributes of the record, which follow the
    message. *)
Theorem X13_attributes_in_order :
  forall E h attrs r w,
    GoSlice.slice_ok (arrays w) (h_attrs h) ->
    exists h' w' head tail,
      WithAttrs h attrs w = (Returns h', w') /\
      line_of E h r w =
        head ++ (Message r ++ format_attrs (RAttrs r) ++
                 format_attrs (bound_attrs w h)) ++ tail /\
      line_of E h' r w' =
        head ++ (Message r ++ format_attrs (RAttrs r) ++
                 format_attrs (bound_attrs w h) ++ format_attrs attrs) ++ tail /\
      line_of E h r w' = line_of E h r w.
Proof.
  intros E h attrs r w Hok.
  destruct (WithAttrs_derives h attrs w Hok) as [h' [w' [H [Hb' Hb]]]].
  destruct (format_line_split E (config w) r) as [head [tail Hs]].
  exists h', w', head, tail. split; [exact H|].
  assert (Hc : config w' = config w).
  { pose proof (WithAttrs_config h attrs w) as Hc. now rewrite H in Hc. }
  unfold line_of. rewrite Hc, Hb', Hb, !Hs, format_attrs_app.
  repeat split; reflexivity.
Qed.

Lemma X13_attributes_in_order_witness :
  let E := sample_env "" false "/src/app.go" 42 in
  let r := Add (mkRecord sample_time LevelInfo "request" 0 [])
               [any_string "a"; any_int 1; any_string "b"; any_int 2] in
  exists h' w',
    WithAttrs (mkHandler 0 Stdout GoSlice.nil_slice []) [attr_s "c" "3"]
              (sample_world E) = (Returns h', w') /\
    line_of E h' r w' = "[2025/12/27 09:20:18] INFO   request a=1 b=2 c=3" ++ newline.
Proof.
  intros E r.
  destruct (X13_attributes_in_order E (mkHandler 0 Stdout GoSlice.nil_slice [])
              [attr_s "c" "3"] r (sample_world E))
    as [h' [w' [head [tail [H _]]]]].
  - split; [apply Nat.le_refl | now left].
  - exists h', w'. split; [exact H|]. vm_compute in H. injection H as <- <-.
    reflexivity.
Defined.

(* ================================================================== *)
(** * Further properties: the color resolver                           *)
(* ================================================================== *)

Import AlphabetFacts.



(** X15: what the resolver returns, and so what every color variable
    holds after its setter, has no white space at either end and no
    escape byte left in its text form; it is empty, or has the escape
    byte, or is the trimmed input. *)
Theorem X15_parseColor_result_shape :
  forall c,
    trimmed (parseColor c) /\
    Contains (parseColor c) escape_text = false /\
    (parseColor c = "" \/ has_byte ESC (parseColor c) = true \/
     parseColor c = TrimSpace c).
Proof.
  intros c. pose proof (TrimSpace_trimmed c) as Ht.
  unfold parseColor. set (t := TrimSpace c) in *.
  assert (Hconst : forall code,
             trimmed (String ESC (String "[" (code ++ "m"))) /\
             (has_byte "\" code = false ->
              Contains (String ESC (String "[" (code ++ "m"))) escape_text = false)).
  { intros code. split.
    - apply (trimmed_ends ESC "m" (String "[" code)); reflexivity.
    - intros H. apply ParseColorFacts.no_backslash_no_escape_text.
      cbn [has_byte]. rewrite has_byte_append, H. reflexivity. }
  assert (Hempty : trimmed "" /\ Contains "" escape_text = false /\
                   ("" = "" \/ has_byte ESC "" = true \/ "" = t)).
  { split; [split; reflexivity|]. split; [reflexivity | now left]. }
  assert (Hnamed : forall code,
             has_byte "\" code = false ->
             trimmed (String ESC (String "[" (code ++ "m"))) /\
             Contains (String ESC (String "[" (code ++ "m"))) escape_text = false /\
             (String ESC (String "[" (code ++ "m")) = "" \/
              has_byte ESC (String ESC (String "[" (code ++ "m"))) = true \/
              String ESC (String "[" (code ++ "m")) = t)).
  { intros code H. destruct (Hconst code) as [H1 H2].
    split; [exact H1|]. split; [now apply H2 | right; left; reflexivity]. }
  destruct (t =? ""); [exact Hempty|].
  destruct (ToLower t =? "red"); [now apply (Hnamed "31")|].
  destruct (ToLower t =? "green"); [now apply (Hnamed "32")|].
  destruct (ToLower t =? "yellow"); [now apply (Hnamed "33")|].
  destruct (ToLower t =? "blue"); [now apply (Hnamed "34")|].
  destruct (ToLower t =? "magenta"); [now apply (Hnamed "35")|].
  destruct (ToLower t =? "cyan"); [now apply (Hnamed "36")|].
  destruct (ToLower t =? "white"); [now apply (Hnamed "37")|].
  destruct ((ToLower t =? "gray") || (ToLower t =? "grey"));
    [now apply (Hnamed "90")|].
  destruct ((ToLower t =? "none") || (ToLower t =? "off")); [exact Hempty|].
  destruct (Contains t (String ESC "") || Contains t escape_text) eqn:Hesc.
  - split; [now apply ParseColorFacts.unescape_trimmed|].
    split; [apply (ParseColorFacts.unescape_complete t 0)|].
    right; left. apply orb_true_iff in Hesc as [H | H].
    + rewrite Contains_byte in H. now apply (ParseColorFacts.unescape_keeps_esc t 0).
    + now apply (ParseColorFacts.unescape_makes_esc t 0).
  - apply orb_false_iff in Hesc as [_ Hm].
    destruct (Atoi t) as [z|] eqn:Hnum.
    + apply Hnamed. now apply (ParseColorFacts.Atoi_no_backslash t z).
    + split; [exact Ht|]. split; [exact Hm | right; right; reflexivity].
Qed.

(* ================================================================== *)
(** * Further properties: the line                                     *)
(* ================================================================== *)

Import ColumnFacts.

(** X16: Handle writes one line that ends in one newline.  Handle does
    not escape anything: a byte that is none of the bytes it puts in by
    itself (digits, the punctuation of the format, the level names) is
    in the line before the final newline only if the message, a key or a
    value of an attribute, the name of the source file or a color has
    it.  So the line has no newline but the last, nor a carriage
    return, when those texts have none. *)
Theorem X16_one_line_one_newline :
  forall E h r w c,
    foreign_byte c ->
    colors_lack c (config w) ->
    lacks c (Message r) ->
    Forall (attr_lacks c) (RAttrs r) ->
    Forall (attr_lacks c) (bound_attrs w h) ->
    lacks c (File (FrameOf E (PC r))) ->
    exists body err,
      Handle E h r w =
      (Returns err,
       set_trace (trace w ++ [EvWrite (h_writer h) (body ++ newline) err]) w) /\
      lacks c body.
Proof.
  intros E h r w c Hc Hcol Hm Ha Hb Hf.
  destruct (format_line_body E (config w) (bound_attrs w h) r) as [body [Hl Hno]].
  exists body. eexists. split.
  - rewrite Handle_spec. unfold line_of. rewrite Hl. reflexivity.
  - now apply Hno.
Qed.

Lemma X16_one_line_one_newline_witness :
  let E := sample_env "" false "/src/service.go" 42 in
  let h := mkHandler 0 Stdout GoSlice.nil_slice [] in
  let r := mkRecord sample_time LevelWarn "slow query" 7
                    [mkAttr "duration" (StringValue "500ms")] in
  exists body err,
    Handle E h r (sample_world E) =
    (Returns err,
     set_trace (trace (sample_world E) ++ [EvWrite Stdout (body ++ newline) err])
               (sample_world E)) /\
    lacks (byte 10) body.
Proof.
  intros E h r.
  apply (X16_one_line_one_newline E h r (sample_world E) (byte 10));
    try reflexivity; try (repeat split; reflexivity); repeat constructor.
Defined.

(** X17: with colors disabled, for a source file with an ASCII name, a
    time of the common era and a source width up to a million, the
    columns are fixed: the time takes 19 bytes, the level name 5, the
    text between the brackets of the source column exactly the source
    width, so the message begins at byte 31 plus the source width of
    every such line. *)
Theorem X17_fixed_columns :
  forall E c bound r,
    colorsDisabled c = true ->
    four_digit_time (RTime r) ->
    PC r <> 0%N ->
    File (FrameOf E (PC r)) <> "" ->
    all_ascii (File (FrameOf E (PC r))) = true ->
    (0 < sourceWidth c <= 1000000)%Z ->
    exists loc,
      format_line E c bound r =
      "[" ++ FormatTime (RTime r) ++ "] " ++ level_name (RLevel r) ++
      " [" ++ loc ++ "] " ++
      Message r ++ format_attrs (RAttrs r) ++ format_attrs bound ++ newline /\
      length (FormatTime (RTime r)) = 19 /\
      length (level_name (RLevel r)) = 5 /\
      length loc = Z.to_nat (sourceWidth c) /\
      length ("[" ++ FormatTime (RTime r) ++ "] " ++ level_name (RLevel r) ++
              " [" ++ loc ++ "] ") = 31 + Z.to_nat (sourceWidth c).
Proof.
  intros E c bound r Hcd Ht Hpc Hfile Hascii Hw.
  set (f := FrameOf E (PC r)) in *.
  set (loc := fit_source (sourceWidth c)
                (after_last_slash (File f) ++ ":" ++ itoa (Line f))).
  assert (Hloc : length loc = Z.to_nat (sourceWidth c)).
  { apply fit_source_ascii; [|exact Hw].
    apply all_ascii_append; [now apply all_ascii_after_last_slash|].
    apply (all_ascii_append ":"); [reflexivity | apply all_ascii_itoa]. }
  exists loc.
  pose proof (length_FormatTime _ Ht) as Hlt.
  pose proof (length_level_name (RLevel r)) as Hll.
  split; [|split; [exact Hlt | split; [exact Hll | split; [exact Hloc|]]]].
  - unfold format_line. rewrite formatLevelWithColor_shape, Hcd.
    cbn [orb negb andb]. apply N.eqb_neq in Hpc. rewrite Hpc.
    fold f. unfold format_source. apply String.eqb_neq in Hfile.
    rewrite Hfile, Hcd. cbn [negb andb]. fold loc.
    rewrite !append_assoc. reflexivity.
  - rewrite !length_append, Hlt, Hll, Hloc. cbn [length]. lia.
Qed.

Lemma X17_fixed_columns_witness :
  let E := sample_env "" false "/src/exchange_client.go" 1234 in
  let c := DisableColors initial_config in
  let r := mkRecord sample_time LevelError "connection failed" 7
                    [mkAttr "err" (AnyValue "timeout")] in
  format_line E c [] r =
  "[2025/12/27 09:20:18] ERROR [exchange_client.go:1] connection failed err=timeout"
  ++ newline.
Proof.
  intros E c r.
  destruct (X17_fixed_columns E c [] r) as [loc [H _]];
    try reflexivity; try discriminate.
  - unfold four_digit_time. cbn. lia.
  - cbn. lia.
Defined.


